(** * Verification model of the feed ranking and caching core of
    tea-backend-challenge.

    Sources embedded here:
    - src/utils/scoreCalculator.ts   (ScoreCalculator)
    - src/models/Post.ts             (the pre-save score hook)
    - src/services/PostService.ts    (getPosts, likePost, unlikePost)
    - src/services/RedisPostService.ts (cache, ranking sets, hybrid page)
    - types/scoring.ts and the Like model (src/unnamed parts). *)

From Stdlib Require Import Reals Lra Lia ZArith QArith List String Bool Permutation Sorted.
From Stdlib Require OrdersEx.
Import ListNotations.
Open Scope string_scope.

(* ================================================================== *)
(** ** JavaScript numbers                                              *)
(* ================================================================== *)

(** A JS [number] is a double; the model keeps its special values and
    represents finite values by exact reals (rounding is not modelled). *)
Module JsNum.

Local Open Scope R_scope.

Inductive num : Type :=
| NaN
| PInf
| NInf
| Fin (r : R).

Definition Rltb (x y : R) : bool := if Rlt_dec x y then true else false.
Definition Rleb (x y : R) : bool := if Rle_dec x y then true else false.

(** [Math.max(0, x)]: NaN is absorbing, [-Infinity] loses to 0. *)
Definition max0 (x : num) : num :=
  match x with
  | NaN => NaN
  | PInf => PInf
  | NInf => Fin 0
  | Fin r => Fin (Rmax 0 r)
  end.

(** [x + y] *)
Definition add (x y : num) : num :=
  match x, y with
  | NaN, _ | _, NaN => NaN
  | PInf, NInf | NInf, PInf => NaN
  | PInf, _ | _, PInf => PInf
  | NInf, _ | _, NInf => NInf
  | Fin a, Fin b => Fin (a + b)
  end.

(** [x * y] *)
Definition mul (x y : num) : num :=
  let inf_times (positive : bool) (r : R) :=
    if Rltb 0 r then (if positive then PInf else NInf)
    else if Rltb r 0 then (if positive then NInf else PInf)
    else NaN in
  match x, y with
  | NaN, _ | _, NaN => NaN
  | PInf, PInf | NInf, NInf => PInf
  | PInf, NInf | NInf, PInf => NInf
  | PInf, Fin r | Fin r, PInf => inf_times true r
  | NInf, Fin r | Fin r, NInf => inf_times false r
  | Fin a, Fin b => Fin (a * b)
  end.

(** [Math.log10] *)
Definition log10 (x : num) : num :=
  match x with
  | NaN | NInf => NaN
  | PInf => PInf
  | Fin r =>
      if Rltb 0 r then Fin (ln r / ln 10)
      else if Rltb r 0 then NaN else NInf
  end.

(** [Math.sqrt] *)
Definition sqrt (x : num) : num :=
  match x with
  | NaN | NInf => NaN
  | PInf => PInf
  | Fin r => if Rltb r 0 then NaN else Fin (R_sqrt.sqrt r)
  end.

End JsNum.

Import JsNum.

(* ================================================================== *)
(** ** types/scoring.ts and utils/scoreCalculator.ts                   *)
(* ================================================================== *)

Module Scoring.

Local Open Scope R_scope.

Inductive ScoringAlgorithm := LOGARITHMIC | LINEAR | SQUARE_ROOT.

Record ScoringConfig := {
  algorithm : ScoringAlgorithm;
  freshnessWeight : R;
  maxAgeHours : R
}.

Definition DEFAULT_SCORING_CONFIG : ScoringConfig :=
  {| algorithm := LOGARITHMIC; freshnessWeight := 1; maxAgeHours := 168 |}.

Record PostScore := {
  relevanceScore : num;
  freshnessScore : R;
  finalScore : num;
  scoreAlgorithm : ScoringAlgorithm;
  ageInHours : R
}.

(** [calculateRelevanceScore] *)
Definition calculateRelevanceScore (likeCount : num) (alg : ScoringAlgorithm) : num :=
  let safeLikeCount := max0 likeCount in
  match alg with
  | LOGARITHMIC => log10 (add safeLikeCount (Fin 1))
  | LINEAR => mul safeLikeCount (Fin (1/10))
  | SQUARE_ROOT => sqrt safeLikeCount
  end.

(** [calculateFreshnessScore] *)
Definition calculateFreshnessScore (ageInHours maxAgeHours : R) : R :=
  let safeAge := Rmax 0 ageInHours in
  if Rle_dec maxAgeHours safeAge then 0
  else
    let halfLife := 24 in
    let decayConstant := ln 2 / halfLife in
    exp (- decayConstant * safeAge).

(** [calculateScore]; [now] is the [new Date()] the function reads, and
    dates are their [getTime()] in milliseconds. *)
Definition calculateScore (likeCount : num) (createdAt : R)
    (config : ScoringConfig) (now : R) : PostScore :=
  let ageInHours := (now - createdAt) / (1000 * 60 * 60) in
  let relevanceScore := calculateRelevanceScore likeCount (algorithm config) in
  let freshnessScore := calculateFreshnessScore ageInHours (maxAgeHours config) in
  let finalScore :=
    add relevanceScore (Fin (freshnessWeight config * freshnessScore)) in
  {| relevanceScore := relevanceScore;
     freshnessScore := freshnessScore;
     finalScore := finalScore;
     scoreAlgorithm := algorithm config;
     ageInHours := ageInHours |}.

End Scoring.

Import Scoring.

(* ================================================================== *)
(** ** The authoritative store and [PostService.getPosts]              *)
(* ================================================================== *)

Module Store.

Local Open Scope Z_scope.

Inductive SortOption := RELEVANCE | FRESHNESS | CREATED_AT | LIKE_COUNT.
Inductive SortOrder := ASC | DESC.

(** A post document ([models/Post.ts]); dates are [getTime()] values. *)
Record Post := mkPost {
  post_id : string;
  categoryId : string;
  authorId : string;
  likeCount : Z;
  score : num;
  createdAt : R
}.

(** A category document ([models/Category.ts]), the fields read here. *)
Record Category := mkCategory {
  cat_id : string;
  isActive : bool
}.

(** A like document ([models/Like.ts]): [(userId, postId)]. *)
Definition Like := (string * string)%type.

Record DB := mkDB {
  posts : list Post;
  categories : list Category;
  likes : list Like
}.

Record PostFilters := mkFilters {
  f_categoryId : option string;
  f_sortBy : option SortOption;
  f_order : option SortOrder
}.

(** [undefined] is [None]; a JS number is here an integer. *)
Record PaginationOptions := mkPagination {
  p_page : option Z;
  p_limit : option Z;
  p_offset : option Z
}.

Record PaginationResult := mkPaginationResult {
  r_page : Z;
  r_limit : Z;
  r_offset : Z;
  r_total : Z;
  r_totalPages : Z;
  r_hasNext : bool;
  r_hasPrevious : bool;
  r_nextOffset : option Z;
  r_prevOffset : option Z
}.

Record PostsResult := mkPostsResult {
  res_posts : list Post;
  res_pagination : PaginationResult
}.

(** [x || d] for an optional number: [undefined] and [0] are falsy. *)
Definition or_default (x : option Z) (d : Z) : Z :=
  match x with
  | Some z => if z =? 0 then d else z
  | None => d
  end.

(** Truthiness of an optional string. *)
Definition truthy_str (x : option string) : option string :=
  match x with
  | Some s => if String.eqb s "" then None else Some s
  | None => None
  end.

(** [Math.ceil(a / b)] for [b <> 0]. *)
Definition ceil_div (a b : Z) : Z := - ((- a) / b).

(** The page size [getPosts] and [getHybridFirstPage] use. *)
Definition clampLimit (limit : option Z) : Z :=
  Z.min 100 (Z.max 1 (or_default limit 20)).

(** Sort fields and the MongoDB order on their values. *)
Inductive SortField := FScore | FLikeCount | FCreatedAt.

Definition num_rank (x : num) : Z :=
  match x with NaN => 0 | NInf => 1 | Fin _ => 2 | PInf => 3 end.

Definition R_compare (a b : R) : comparison :=
  if Rlt_dec a b then Lt else if Rlt_dec b a then Gt else Eq.

Definition num_compare (x y : num) : comparison :=
  match x, y with
  | Fin a, Fin b => R_compare a b
  | _, _ => Z.compare (num_rank x) (num_rank y)
  end.

Definition field_compare (f : SortField) (a b : Post) : comparison :=
  match f with
  | FScore => num_compare (score a) (score b)
  | FLikeCount => Z.compare (likeCount a) (likeCount b)
  | FCreatedAt => R_compare (createdAt a) (createdAt b)
  end.

(** A sort specification: fields with direction [1] or [-1]. *)
Definition SortSpec := list (SortField * Z).

Fixpoint spec_compare (spec : SortSpec) (a b : Post) : comparison :=
  match spec with
  | [] => Eq
  | (f, dir) :: rest =>
      match field_compare f a b with
      | Eq => spec_compare rest a b
      | c => if dir =? 1 then c else CompOpp c
      end
  end.

Fixpoint insert_sorted (spec : SortSpec) (x : Post) (l : list Post) : list Post :=
  match l with
  | [] => [x]
  | y :: ys =>
      match spec_compare spec x y with
      | Lt => x :: y :: ys
      | _ => y :: insert_sorted spec x ys
      end
  end.

(** [$sort]: a stable sort by the specification. *)
Definition sort_posts (spec : SortSpec) (l : list Post) : list Post :=
  fold_left (fun acc x => insert_sorted spec x acc) l [].

(** [buildSortOptions] *)
Definition buildSortOptions (sortBy : option SortOption) (order : option SortOrder)
    : SortSpec :=
  let sortDirection := match order with Some ASC => 1 | _ => -1 end in
  let field :=
    match sortBy with
    | Some CREATED_AT => FCreatedAt
    | Some LIKE_COUNT => FLikeCount
    | Some RELEVANCE | Some FRESHNESS => FCreatedAt
    | None => FCreatedAt
    end in
  match field with
  | FCreatedAt => [(field, sortDirection)]
  | _ => [(field, sortDirection); (FCreatedAt, -1)]
  end.

(** The [$lookup] of the post's category followed by
    [$match: {'category.isActive': true, 'category': {$ne: []}}]. *)
Definition category_active (cats : list Category) (p : Post) : bool :=
  existsb (fun c => String.eqb (cat_id c) (categoryId p) && isActive c) cats.

(** The optional [$match: {categoryId}] stage. *)
Definition category_filter (filters : PostFilters) (p : Post) : bool :=
  match truthy_str (f_categoryId filters) with
  | Some c => String.eqb (categoryId p) c
  | None => true
  end.

(** The documents the pipeline keeps before [$sort]. *)
Definition visible_posts (db : DB) (filters : PostFilters) : list Post :=
  filter (category_active (categories db))
    (filter (category_filter filters) (posts db)).

Definition needsScoring (sortBy : option SortOption) : bool :=
  match sortBy with Some RELEVANCE | Some FRESHNESS => true | _ => false end.

(** [PostService.getPosts] *)
Definition getPosts (db : DB) (filters : PostFilters) (pagination : PaginationOptions)
    : PostsResult :=
  let page := Z.max 1 (or_default (p_page pagination) 1) in
  let limit := clampLimit (p_limit pagination) in
  let skipOffset :=
    match p_offset pagination with
    | None => (page - 1) * limit
    | Some _ => Z.max 0 (or_default (p_offset pagination) 0)
    end in
  let sortOptions :=
    if needsScoring (f_sortBy filters)
    then [(FScore, match f_order filters with Some ASC => 1 | _ => -1 end);
          (FCreatedAt, -1)]
    else buildSortOptions (f_sortBy filters) (f_order filters) in
  let matched := visible_posts db filters in
  let sorted := sort_posts sortOptions matched in
  let posts := firstn (Z.to_nat limit) (skipn (Z.to_nat skipOffset) sorted) in
  let total := Z.of_nat (List.length matched) in
  let currentPage :=
    match p_offset pagination with
    | Some _ => skipOffset / limit + 1
    | None => page
    end in
  let totalPages := ceil_div total limit in
  {| res_posts := posts;
     res_pagination :=
       {| r_page := currentPage;
          r_limit := limit;
          r_offset := skipOffset;
          r_total := total;
          r_totalPages := totalPages;
          r_hasNext := skipOffset + limit <? total;
          r_hasPrevious := 0 <? skipOffset;
          r_nextOffset :=
            if skipOffset + limit <? total then Some (skipOffset + limit) else None;
          r_prevOffset :=
            if 0 <? skipOffset then Some (Z.max 0 (skipOffset - limit)) else None |} |}.

End Store.

Import Store.

(* ================================================================== *)
(** ** Redis sorted sets and the hot-post ranking sets                 *)
(* ================================================================== *)

Module Ranking.

Local Open Scope Z_scope.

(** A sorted set: members with their scores, in Redis rank order
    (ascending score, ties by member bytes). Redis scores are doubles and
    never NaN. *)
Definition zset := list (string * num).

Definition zentry_compare (a b : string * num) : comparison :=
  match num_compare (snd a) (snd b) with
  | Eq => String.compare (fst a) (fst b)
  | c => c
  end.

Fixpoint zinsert (e : string * num) (z : zset) : zset :=
  match z with
  | [] => [e]
  | y :: ys =>
      match zentry_compare e y with
      | Gt => y :: zinsert e ys
      | _ => e :: y :: ys
      end
  end.

(** [ZREM key member] *)
Definition zrem (member : string) (z : zset) : zset :=
  filter (fun e => negb (String.eqb (fst e) member)) z.

(** [ZADD key score member] *)
Definition zadd (sc : num) (member : string) (z : zset) : zset :=
  zinsert (member, sc) (zrem member z).

(** Redis' normalisation of a rank range [start, stop] over [llen]
    elements (t_zset.c); [None] is an empty range. *)
Definition rank_range (llen start stop : Z) : option (Z * Z) :=
  let start := if start <? 0 then llen + start else start in
  let stop := if stop <? 0 then llen + stop else stop in
  let start := if start <? 0 then 0 else start in
  if (stop <? start) || (llen <=? start) then None
  else Some (start, if llen <=? stop then llen - 1 else stop).

(** [ZREMRANGEBYRANK key start stop] *)
Definition zremrangebyrank (start stop : Z) (z : zset) : zset :=
  match rank_range (Z.of_nat (List.length z)) start stop with
  | None => z
  | Some (s, e) => (firstn (Z.to_nat s) z ++ skipn (Z.to_nat (e + 1)) z)%list
  end.

(** [ZREVRANGE key start stop], the members only. *)
Definition zrevrange (start stop : Z) (z : zset) : list string :=
  let rz := rev z in
  match rank_range (Z.of_nat (List.length z)) start stop with
  | None => []
  | Some (s, e) => map fst (firstn (Z.to_nat (e - s + 1)) (skipn (Z.to_nat s) rz))
  end.

(** Ranking scopes: [hot_posts:global] and [hot_posts:category:<id>]. *)
Inductive Scope := SGlobal | SCategory (c : string).

Definition scope_eqb (a b : Scope) : bool :=
  match a, b with
  | SGlobal, SGlobal => true
  | SCategory x, SCategory y => String.eqb x y
  | _, _ => false
  end.

Definition HotSets := list (Scope * zset).

Fixpoint hot_lookup (h : HotSets) (s : Scope) : zset :=
  match h with
  | [] => []
  | (s', z) :: rest => if scope_eqb s s' then z else hot_lookup rest s
  end.

Definition hot_set (h : HotSets) (s : Scope) (z : zset) : HotSets :=
  (s, z) :: filter (fun e => negb (scope_eqb (fst e) s)) h.

(** [RedisPostService.CONFIG] *)
Definition MAX_HOT_POSTS_GLOBAL : Z := 100.
Definition MAX_HOT_POSTS_PER_CATEGORY : Z := 50.
Definition MIN_HOT_POST_SCORE : R := 3.

Definition max_size (s : Scope) : Z :=
  match s with
  | SGlobal => MAX_HOT_POSTS_GLOBAL
  | SCategory _ => MAX_HOT_POSTS_PER_CATEGORY
  end.

(** [post.score || 0]: NaN is falsy. *)
Definition score_or_zero (x : num) : num :=
  match x with NaN => Fin 0 | _ => x end.

(** [score >= this.CONFIG.MIN_HOT_POST_SCORE] *)
Definition is_hot (x : num) : bool :=
  match x with
  | PInf => true
  | Fin r => Rleb MIN_HOT_POST_SCORE r
  | _ => false
  end.

(** One scope's part of the pipeline of [updateHotPostRankings]. *)
Definition update_scope (h : HotSets) (s : Scope) (postId : string) (sc : num)
    : HotSets :=
  let z := hot_lookup h s in
  if is_hot sc
  then hot_set h s (zremrangebyrank 0 (- (max_size s + 1)) (zadd sc postId z))
  else hot_set h s (zrem postId z).

(** The commands of [updateHotPostRankings(post)], applied in pipeline
    order: global scope, then the post's category scope. The [EXPIRE]
    commands only set a time-to-live. *)
Definition updateHotPostRankings (h : HotSets) (p : Post) : HotSets :=
  let postId := post_id p in
  let sc := score_or_zero (score p) in
  let h := update_scope h SGlobal postId sc in
  update_scope h (SCategory (categoryId p)) postId sc.

(** Events that change the ranking sets: an update for a post, the
    expiry of a whole set ([HOT_POSTS_TTL]), or [clearAllCaches], which
    deletes every [hot_posts:*] key. *)
Inductive RankingEvent :=
| EvUpdate (p : Post)
| EvExpire (s : Scope)
| EvClearAll.

Definition ranking_step (h : HotSets) (ev : RankingEvent) : HotSets :=
  match ev with
  | EvUpdate p => updateHotPostRankings h p
  | EvExpire s => hot_set h s []
  | EvClearAll => []
  end.

Definition run_ranking (h : HotSets) (evs : list RankingEvent) : HotSets :=
  fold_left ranking_step evs h.

(** The bound of the claim, for one scope. *)
Definition scope_ok (h : HotSets) (s : Scope) : Prop :=
  Z.of_nat (List.length (hot_lookup h s)) <= max_size s /\
  Forall (fun e => is_hot (snd e) = true) (hot_lookup h s).

End Ranking.

Import Ranking.

(* ================================================================== *)
(** ** The Redis key space and the service monad                       *)
(* ================================================================== *)

Module Service.

Local Open Scope Z_scope.

Definition SortOption_eqb (a b : SortOption) : bool :=
  match a, b with
  | RELEVANCE, RELEVANCE | FRESHNESS, FRESHNESS
  | CREATED_AT, CREATED_AT | LIKE_COUNT, LIKE_COUNT => true
  | _, _ => false
  end.

Definition SortOrder_eqb (a b : SortOrder) : bool :=
  match a, b with ASC, ASC | DESC, DESC => true | _, _ => false end.

Definition ostr_eqb (a b : option string) : bool :=
  match a, b with
  | Some x, Some y => String.eqb x y
  | None, None => true
  | _, _ => false
  end.

(** [feed:<categoryId|all>:v<version>:<sortBy>:<order>] *)
Record FeedKey := mkFeedKey {
  fk_cat : option string;
  fk_version : Z;
  fk_sort : SortOption;
  fk_order : SortOrder
}.

Definition FeedKey_eqb (a b : FeedKey) : bool :=
  ostr_eqb (fk_cat a) (fk_cat b) && (fk_version a =? fk_version b) &&
  SortOption_eqb (fk_sort a) (fk_sort b) && SortOrder_eqb (fk_order a) (fk_order b).

(** The key families the service uses. Their string prefixes
    ([feed_v:], [feed:], [user_like:], [hot_posts:]) are pairwise
    distinct, so each family is its own table. *)
Inductive RKey :=
| KFeedVersion (c : option string)
| KFeed (k : FeedKey)
| KUserLike (postId userId : string)
| KHot (s : Scope).

(** Kinds of Redis commands: reads ([GET], [ZREVRANGE]) and writes
    ([SET], [SETEX], [INCR], [DEL], pipelines). *)
Inductive RCmd := CRead | CWrite.

(** The Redis store. [down c k] says that commands of kind [c] on key [k]
    fail (the client rejects them); the tables hold the keys' values: version
    counters, serialised feed pages, [user_like] flags and ranking sets. *)
Record Redis := mkRedis {
  versions : list (option string * Z);
  feeds : list (FeedKey * PostsResult);
  user_likes : list (string * string);
  hot : HotSets;
  down : RCmd -> RKey -> bool
}.

Fixpoint version_lookup (l : list (option string * Z)) (c : option string) : option Z :=
  match l with
  | [] => None
  | (c', v) :: rest => if ostr_eqb c c' then Some v else version_lookup rest c
  end.

Fixpoint feed_lookup (l : list (FeedKey * PostsResult)) (k : FeedKey) : option PostsResult :=
  match l with
  | [] => None
  | (k', v) :: rest => if FeedKey_eqb k k' then Some v else feed_lookup rest k
  end.

Definition user_like_set (r : Redis) (postId userId : string) : bool :=
  existsb (fun e => String.eqb (fst e) postId && String.eqb (snd e) userId) (user_likes r).

Definition set_versions (r : Redis) v :=
  mkRedis v (feeds r) (user_likes r) (hot r) (down r).
Definition set_feeds (r : Redis) f :=
  mkRedis (versions r) f (user_likes r) (hot r) (down r).
Definition set_user_likes (r : Redis) u :=
  mkRedis (versions r) (feeds r) u (hot r) (down r).
Definition set_hot (r : Redis) h :=
  mkRedis (versions r) (feeds r) (user_likes r) h (down r).

Record World := mkWorld { db : DB; redis : Redis }.

(** Errors: the service's domain errors, the store's duplicate-key and
    validation errors, and failures of the Redis client. *)
Inductive Err :=
| EPostNotFound | EAlreadyLiked | ENotLiked | EFailedUpdate
| EDuplicateKey | EValidation | ERedisDown | ETypeError.

Inductive Res (A : Type) := Ok (a : A) | Error (e : Err).
Arguments Ok {A} a.
Arguments Error {A} e.

(** An [async] method: state passing with exceptions. *)
Definition M (A : Type) := World -> Res A * World.

Definition ret {A} (a : A) : M A := fun w => (Ok a, w).
Definition throw {A} (e : Err) : M A := fun w => (Error e, w).
Definition bind {A B} (m : M A) (k : A -> M B) : M B :=
  fun w => match m w with
           | (Ok a, w') => k a w'
           | (Error e, w') => (Error e, w')
           end.
(** [try { m } catch (e) { h(e) }]: effects before the throw remain. *)
Definition catch {A} (m : M A) (h : Err -> M A) : M A :=
  fun w => match m w with
           | (Ok a, w') => (Ok a, w')
           | (Error e, w') => h e w'
           end.

Notation "x <- m ;; k" := (bind m (fun x => k))
  (at level 61, m at next level, right associativity).
Notation "m ;;; k" := (bind m (fun _ => k))
  (at level 61, right associativity).

Definition gets_db {A} (f : DB -> A) : M A := fun w => (Ok (f (db w)), w).
Definition modify_db (f : DB -> DB) : M unit :=
  fun w => (Ok tt, mkWorld (f (db w)) (redis w)).

(** A Redis command of kind [c] on key [k]. *)
Definition redis_cmd {A} (c : RCmd) (k : RKey) (f : Redis -> A * Redis) : M A :=
  fun w => if down (redis w) c k then (Error ERedisDown, w)
           else let (a, r') := f (redis w) in (Ok a, mkWorld (db w) r').

(** A MongoDB session transaction: on an error the store is rolled back
    ([abortTransaction]); Redis is not part of it. *)
Definition transaction {A} (m : M A) : M A :=
  fun w => match m w with
           | (Ok a, w') => (Ok a, w')
           | (Error e, w') => (Error e, mkWorld (db w) (redis w'))
           end.

End Service.

Import Service.

(* ================================================================== *)
(** ** [PostService.likePost] and [PostService.unlikePost]             *)
(* ================================================================== *)

Module PostSvc.

Local Open Scope Z_scope.

Definition find_post (db : DB) (postId : string) : option Post :=
  find (fun p => String.eqb (post_id p) postId) (posts db).

Definition like_exists (db : DB) (userId postId : string) : bool :=
  existsb (fun l => String.eqb (fst l) userId && String.eqb (snd l) postId) (likes db).

Definition set_posts (db : DB) ps := mkDB ps (categories db) (likes db).
Definition set_likes (db : DB) ls := mkDB (posts db) (categories db) ls.

(** [Post.findById(postId)] *)
Definition findById (postId : string) : M (option Post) :=
  gets_db (fun db => find_post db postId).

(** [Like.findOne({ userId, postId })] *)
Definition findOneLike (userId postId : string) : M bool :=
  gets_db (fun db => like_exists db userId postId).

(** [new Like({ userId, postId }).save()]: the [postId] validator runs
    first, then the unique index on [(userId, postId)] rejects a
    duplicate (MongoDB error code 11000). *)
Definition saveLike (userId postId : string) : M unit :=
  fun w =>
    let d := db w in
    match find_post d postId with
    | None => (Error EValidation, w)
    | Some _ =>
        if like_exists d userId postId then (Error EDuplicateKey, w)
        else (Ok tt, mkWorld (set_likes d (likes d ++ [(userId, postId)])%list) (redis w))
    end.

(** [Like.deleteOne({ userId, postId })] *)
Definition deleteLike (userId postId : string) : M unit :=
  modify_db (fun d =>
    set_likes d (filter (fun l => negb (String.eqb (fst l) userId && String.eqb (snd l) postId))
                   (likes d))).

Definition map_post (f : Post -> Post) (postId : string) (d : DB) : DB :=
  set_posts d (map (fun p => if String.eqb (post_id p) postId then f p else p) (posts d)).

Definition with_likeCount (p : Post) (n : Z) : Post :=
  mkPost (post_id p) (categoryId p) (authorId p) n (score p) (createdAt p).

(** [Post.findByIdAndUpdate(postId, { $inc: { likeCount: delta } }, { new: true })].
    A query update: document middleware such as [pre('save')] does not
    run, so only [likeCount] changes. *)
Definition incLikeCount (postId : string) (delta : Z) : M (option Post) :=
  modify_db (map_post (fun p => with_likeCount p (likeCount p + delta)) postId) ;;;
  findById postId.

(** [Post.findByIdAndUpdate(postId, { likeCount: v })] *)
Definition setLikeCount (postId : string) (v : Z) : M unit :=
  modify_db (map_post (fun p => with_likeCount p v) postId).

Record LikeResult := mkLikeResult {
  lr_liked : bool;
  lr_likeCount : Z;
  lr_post : option Post
}.

Definition likeCount_or_zero (p : option Post) : Z :=
  match p with Some p => or_default (Some (likeCount p)) 0 | None => 0 end.

(** [PostService.likePost]; [useTransactions] is
    [process.env.NODE_ENV !== 'test']. *)
Definition likePost (useTransactions : bool) (userId postId : string) : M LikeResult :=
  if useTransactions then
    transaction (
      post <- findById postId ;;
      match post with
      | None => throw EPostNotFound
      | Some _ =>
          existingLike <- findOneLike userId postId ;;
          if existingLike then throw EAlreadyLiked
          else
            saveLike userId postId ;;;
            updatedPost <- incLikeCount postId 1 ;;
            ret (mkLikeResult true (likeCount_or_zero updatedPost) updatedPost)
      end)
  else
    post <- findById postId ;;
    match post with
    | None => throw EPostNotFound
    | Some _ =>
        catch
          (saveLike userId postId ;;;
           updatedPost <- incLikeCount postId 1 ;;
           match updatedPost with
           | None => deleteLike userId postId ;;; throw EFailedUpdate
           | Some up => ret (mkLikeResult true (likeCount up) (Some up))
           end)
          (fun e => match e with
                    | EDuplicateKey => throw EAlreadyLiked
                    | _ => throw e
                    end)
    end.

(** [PostService.unlikePost] *)
Definition unlikePost (useTransactions : bool) (userId postId : string) : M LikeResult :=
  if useTransactions then
    transaction (
      post <- findById postId ;;
      match post with
      | None => throw EPostNotFound
      | Some _ =>
          existingLike <- findOneLike userId postId ;;
          if negb existingLike then throw ENotLiked
          else
            deleteLike userId postId ;;;
            updatedPost <- incLikeCount postId (-1) ;;
            ret (mkLikeResult false (likeCount_or_zero updatedPost) updatedPost)
      end)
  else
    post <- findById postId ;;
    match post with
    | None => throw EPostNotFound
    | Some _ =>
        existingLike <- findOneLike userId postId ;;
        if negb existingLike then throw ENotLiked
        else
          deleteLike userId postId ;;;
          updatedPost <- incLikeCount postId (-1) ;;
          match updatedPost with
          | None => saveLike userId postId ;;; throw EFailedUpdate
          | Some up =>
              if likeCount up <? 0 then
                setLikeCount postId 0 ;;;
                ret (mkLikeResult false 0 (Some (with_likeCount up 0)))
              else ret (mkLikeResult false (likeCount up) (Some up))
          end
    end.

(** The [pre('save')] hook of [models/Post.ts] for a document whose
    [likeCount] is modified or that is new; [now] is the hook's
    [new Date()]. *)
Definition preSaveScore (p : Post) (now : R) : Post :=
  mkPost (post_id p) (categoryId p) (authorId p) (likeCount p)
    (finalScore (calculateScore (Fin (IZR (likeCount p))) (createdAt p)
                   DEFAULT_SCORING_CONFIG now))
    (createdAt p).

End PostSvc.

Import PostSvc.

(* ================================================================== *)
(** ** [RedisPostService]                                              *)
(* ================================================================== *)

Module RedisSvc.

Local Open Scope Z_scope.

(** [normalizeCategoryId] on a string or a populated category. *)
Definition normalizeCategoryId (c : option string) : option string := truthy_str c.

(** [getFeedVersion]: read the counter, initialise it to 1 when absent;
    any Redis error gives version 1. *)
Definition getFeedVersion (c : option string) : M Z :=
  catch
    (v <- redis_cmd CRead (KFeedVersion c) (fun r => (version_lookup (versions r) c, r)) ;;
     match v with
     | Some v => ret v
     | None =>
         redis_cmd CWrite (KFeedVersion c)
           (fun r => (tt, set_versions r ((c, 1) :: versions r))) ;;;
         ret 1
     end)
    (fun _ => ret 1).

(** [bumpFeedVersion]: [INCR]; errors are logged only. *)
Definition bumpFeedVersion (c : option string) : M unit :=
  catch
    (redis_cmd CWrite (KFeedVersion c)
       (fun r =>
          let v := match version_lookup (versions r) c with Some v => v | None => 0 end in
          (tt, set_versions r ((c, v + 1) :: versions r))))
    (fun _ => ret tt).

(** [this.redis.pipeline() ... exec()] of [updateHotPostRankings]; it
    fails when a key it touches is unavailable. *)
Definition updateHotPostRankingsM (p : option Post) : M unit :=
  match p with
  | None => throw ETypeError
  | Some p =>
      fun w =>
        let r := redis w in
        if down r CWrite (KHot SGlobal) || down r CWrite (KHot (SCategory (categoryId p)))
        then (Error ERedisDown, w)
        else (Ok tt, mkWorld (db w) (set_hot r (updateHotPostRankings (hot r) p)))
  end.

Definition post_category (p : option Post) : option string :=
  match p with Some p => normalizeCategoryId (Some (categoryId p)) | None => None end.

(** [RedisPostService.likePost] *)
Definition likePost (useTransactions : bool) (userId postId : string) : M LikeResult :=
  catch
    (exists_ <- redis_cmd CRead (KUserLike postId userId)
                  (fun r => (user_like_set r postId userId, r)) ;;
     if exists_ then throw EAlreadyLiked else ret tt)
    (fun e => match e with
              | EAlreadyLiked => throw EAlreadyLiked
              | _ => ret tt
              end) ;;;
  result <- PostSvc.likePost useTransactions userId postId ;;
  catch
    (redis_cmd CWrite (KUserLike postId userId)
       (fun r => (tt, set_user_likes r ((postId, userId) :: user_likes r))) ;;;
     updateHotPostRankingsM (lr_post result) ;;;
     bumpFeedVersion (post_category (lr_post result)) ;;;
     bumpFeedVersion None)
    (fun _ => ret tt) ;;;
  ret result.

(** [RedisPostService.unlikePost] *)
Definition unlikePost (useTransactions : bool) (userId postId : string) : M LikeResult :=
  catch
    (exists_ <- redis_cmd CRead (KUserLike postId userId)
                  (fun r => (user_like_set r postId userId, r)) ;;
     if negb exists_ then throw ENotLiked else ret tt)
    (fun e => match e with
              | ENotLiked => throw ENotLiked
              | _ => ret tt
              end) ;;;
  result <- PostSvc.unlikePost useTransactions userId postId ;;
  catch
    (redis_cmd CWrite (KUserLike postId userId)
       (fun r => (tt, set_user_likes r
                        (filter (fun e => negb (String.eqb (fst e) postId &&
                                                String.eqb (snd e) userId))
                           (user_likes r)))) ;;;
     updateHotPostRankingsM (lr_post result) ;;;
     bumpFeedVersion (post_category (lr_post result)) ;;;
     bumpFeedVersion None)
    (fun _ => ret tt) ;;;
  ret result.

(** The authoritative query [super.getPosts]. *)
Definition superGetPosts (filters : PostFilters) (pagination : PaginationOptions)
    : M PostsResult :=
  gets_db (fun d => Store.getPosts d filters pagination).

(** [getHotPosts]: [ZREVRANGE key 0 limit-1]. *)
Definition hot_scope (categoryId : option string) : Scope :=
  match truthy_str categoryId with Some c => SCategory c | None => SGlobal end.

Definition getHotPosts (categoryId : option string) (limit : Z) : M (list string) :=
  let s := hot_scope categoryId in
  redis_cmd CRead (KHot s) (fun r => (zrevrange 0 (limit - 1) (hot_lookup (hot r) s), r)).

(** The identities [getHotPosts(filters.categoryId, limit)] returns for
    the page size of a request. *)
Definition hotPostIds (filters : PostFilters) (pagination : PaginationOptions) (r : Redis)
    : list string :=
  zrevrange 0 (clampLimit (p_limit pagination) - 1)
    (hot_lookup (hot r) (hot_scope (f_categoryId filters))).

(** [populateHotPosts]: [Post.find({ _id: { $in: ids } })], then the
    documents in the order of [ids], the missing ones dropped. *)
Definition populate (d : DB) (postIds : list string) : list Post :=
  flat_map (fun id => match find_post d id with Some p => [p] | None => [] end) postIds.

Definition populateHotPosts (postIds : list string) : M (list Post) :=
  gets_db (fun d => populate d postIds).

Definition mem_str (x : string) (l : list string) : bool := existsb (String.eqb x) l.

(** [getRegularPosts] *)
Definition getRegularPosts (filters : PostFilters) (limit : Z) (excludeIds : list string)
    : M PostsResult :=
  result <- superGetPosts filters (mkPagination (Some 1) (Some (limit * 2)) None) ;;
  let filteredPosts :=
    firstn (Z.to_nat limit)
      (filter (fun p => negb (mem_str (post_id p) excludeIds)) (res_posts result)) in
  let pg := res_pagination result in
  ret (mkPostsResult filteredPosts
         (mkPaginationResult (r_page pg) (r_limit pg) (r_offset pg)
            (Z.max 0 (r_total pg - Z.of_nat (List.length excludeIds)))
            (r_totalPages pg) (r_hasNext pg) (r_hasPrevious pg)
            (r_nextOffset pg) (r_prevOffset pg))).

(** [buildPostsResult] *)
Definition buildPostsResult (posts : list Post) (page limit total : Z) : PostsResult :=
  let totalPages := ceil_div total limit in
  let offset := (page - 1) * limit in
  mkPostsResult posts
    (mkPaginationResult page limit offset total totalPages
       (page <? totalPages) (1 <? page)
       (if page <? totalPages then Some (offset + limit) else None)
       (if 1 <? page then Some (Z.max 0 (offset - limit)) else None)).

(** [getHybridFirstPage] *)
Definition getHybridFirstPage (filters : PostFilters) (pagination : PaginationOptions)
    : M PostsResult :=
  let limit := clampLimit (p_limit pagination) in
  catch
    (hotPostIds <- getHotPosts (f_categoryId filters) limit ;;
     let n := Z.of_nat (List.length hotPostIds) in
     if limit <=? n then
       hotPosts <- populateHotPosts (firstn (Z.to_nat limit) hotPostIds) ;;
       ret (buildPostsResult hotPosts 1 limit n)
     else
       let remainingLimit := limit - n in
       regularPosts <- getRegularPosts filters remainingLimit hotPostIds ;;
       hotPosts <- populateHotPosts hotPostIds ;;
       ret (buildPostsResult (hotPosts ++ res_posts regularPosts)%list 1 limit
              (n + r_total (res_pagination regularPosts))))
    (fun _ => superGetPosts filters pagination).

(** [Array.prototype.slice(start, end)] *)
Definition js_slice {A} (l : list A) (start end_ : Z) : list A :=
  let len := Z.of_nat (List.length l) in
  let norm i := if i <? 0 then Z.max (len + i) 0 else Z.min i len in
  let s := norm start in
  let e := norm end_ in
  firstn (Z.to_nat (e - s)) (skipn (Z.to_nat s) l).

(** [cacheFeedResult]: [SETEX key FEED_CACHE_TTL JSON.stringify(result)]. *)
Definition cacheFeedResult (k : FeedKey) (result : PostsResult) : M unit :=
  redis_cmd CWrite (KFeed k) (fun r => (tt, set_feeds r ((k, result) :: feeds r))).

Definition sortBy_or_default (filters : PostFilters) : SortOption :=
  match f_sortBy filters with Some s => s | None => RELEVANCE end.

Definition order_or_default (filters : PostFilters) : SortOrder :=
  match f_order filters with Some o => o | None => DESC end.

(** The cache-hit branch of [getCachedPosts]: [None] when the cached
    window is too short (a miss). *)
Definition serveFromCache (filters : PostFilters) (pagination : PaginationOptions)
    (parsed : PostsResult) : option PostsResult :=
  let requestedLimit :=
    or_default (p_limit pagination)
      (or_default (Some (r_limit (res_pagination parsed))) 20) in
  let requestedPage := or_default (p_page pagination) 1 in
  let availablePosts :=
    match truthy_str (f_categoryId filters) with
    | Some _ =>
        let requestedCat := normalizeCategoryId (f_categoryId filters) in
        filter (fun p => ostr_eqb (normalizeCategoryId (Some (categoryId p))) requestedCat)
          (res_posts parsed)
    | None => res_posts parsed
    end in
  let offset := (requestedPage - 1) * requestedLimit in
  if offset + requestedLimit <=? Z.of_nat (List.length availablePosts) then
    let sliced := js_slice availablePosts offset (offset + requestedLimit) in
    let total := r_total (res_pagination parsed) in
    let totalPages := ceil_div total requestedLimit in
    Some (mkPostsResult sliced
            (mkPaginationResult requestedPage requestedLimit offset total totalPages
               (requestedPage <? totalPages) (1 <? requestedPage)
               (if requestedPage <? totalPages then Some (offset + requestedLimit) else None)
               (if 1 <? requestedPage then Some (Z.max 0 (offset - requestedLimit)) else None)))
  else None.

Definition feedKey (filters : PostFilters) (version : Z) : FeedKey :=
  mkFeedKey (normalizeCategoryId (f_categoryId filters)) version
    (sortBy_or_default filters) (order_or_default filters).

(** [getCachedPosts] *)
Definition getCachedPosts (filters : PostFilters) (pagination : PaginationOptions)
    : M PostsResult :=
  version <- getFeedVersion (normalizeCategoryId (f_categoryId filters)) ;;
  let cacheKey := feedKey filters version in
  catch
    (cached <- redis_cmd CRead (KFeed cacheKey) (fun r => (feed_lookup (feeds r) cacheKey, r)) ;;
     match option_map (serveFromCache filters pagination) cached with
     | Some (Some hit) => ret hit
     | _ =>
         result <- superGetPosts filters pagination ;;
         cacheFeedResult cacheKey result ;;;
         ret result
     end)
    (fun _ => superGetPosts filters pagination).

Definition isScoreBasedSort (s : SortOption) : bool :=
  match s with RELEVANCE | FRESHNESS => true | _ => false end.

(** [RedisPostService.getPosts] *)
Definition getPosts (filters : PostFilters) (pagination : PaginationOptions)
    : M PostsResult :=
  let page := or_default (p_page pagination) 1 in
  let sortBy := sortBy_or_default filters in
  if (page =? 1) && isScoreBasedSort sortBy
  then getHybridFirstPage filters pagination
  else getCachedPosts filters pagination.

(** The Redis pre-check of [RedisPostService.likePost]: a readable, set
    [user_like] flag. *)
Definition flag_set (w : World) (userId postId : string) : bool :=
  negb (down (redis w) CRead (KUserLike postId userId)) &&
  user_like_set (redis w) postId userId.

End RedisSvc.

Import RedisSvc.

(* ================================================================== *)
(** ** Further parts of the services                                   *)
(* ================================================================== *)

Module Views.

Local Open Scope Z_scope.

(** The [$sort] stage [PostService.getPosts] builds. *)
Definition getPosts_sortOptions (filters : PostFilters) : SortSpec :=
  if needsScoring (f_sortBy filters)
  then [(FScore, match f_order filters with Some ASC => 1 | _ => -1 end); (FCreatedAt, -1)]
  else buildSortOptions (f_sortBy filters) (f_order filters).

(** [ZREVRANGE key start stop WITHSCORES] *)
Definition zrevrange_withscores (start stop : Z) (z : zset) : list (string * num) :=
  let rz := rev z in
  match rank_range (Z.of_nat (List.length z)) start stop with
  | None => []
  | Some (s, e) => firstn (Z.to_nat (e - s + 1)) (skipn (Z.to_nat s) rz)
  end.

Record HotStats := mkHotStats {
  global_count : Z;
  global_top3 : list (string * num)
}.

(** [RedisPostService.getHotPostsStats]: [ZCARD] and [ZREVRANGE 0 2
    WITHSCORES] on [hot_posts:global]; errors propagate. *)
Definition getHotPostsStats : M HotStats :=
  globalCount <- redis_cmd CRead (KHot SGlobal)
                   (fun r => (Z.of_nat (List.length (hot_lookup (hot r) SGlobal)), r)) ;;
  globalTop3 <- redis_cmd CRead (KHot SGlobal)
                  (fun r => (zrevrange_withscores 0 2 (hot_lookup (hot r) SGlobal), r)) ;;
  ret (mkHotStats globalCount globalTop3).

End Views.

Import Views.

(* ================================================================== *)
(** ** Concrete inputs                                                 *)
(* ================================================================== *)

Module Inputs.

Local Open Scope Z_scope.

Definition cat1 : Category := mkCategory "c1" true.

(** A post created at time 0, its score set by the [pre('save')] hook
    at time 0. *)
Definition post1 : Post :=
  PostSvc.preSaveScore (mkPost "p1" "c1" "a1" 0 (Fin 0) 0) 0.

Definition redis_up : Redis := mkRedis [] [] [] [] (fun _ _ => false).

Definition world1 : World := mkWorld (mkDB [post1] [cat1] []) redis_up.

(** [world1] after ["u1"] liked ["p1"]. *)
Definition world1_liked : World :=
  mkWorld (mkDB [post1] [cat1] [("u1", "p1")]) redis_up.

(** [world1] with a [user_like:p1:u1] flag in Redis but no Like record. *)
Definition world_flag_only : World :=
  mkWorld (mkDB [post1] [cat1] [])
    (mkRedis [] [] [("p1", "u1")] [] (fun _ _ => false)).




Definition no_filters : PostFilters := mkFilters None None None.


(** A feed of twenty posts ["A"] ... ["T"] in the active category
    ["c1"]; the global ranking set holds the first five. *)
Definition pid (n : nat) : string := String (Ascii.ascii_of_nat (65 + n)) EmptyString.

Definition feed_post (n : nat) : Post := mkPost (pid n) "c1" "a1" 0 (Fin 0) 0.

Definition feed_posts : list Post := map feed_post (seq 0 20).

Definition hot_global : zset := map (fun n => (pid n, Fin 5)) (seq 0 5).

Definition world_feed : World :=
  mkWorld (mkDB feed_posts [cat1] [])
    (mkRedis [] [] [] [(SGlobal, hot_global)] (fun _ _ => false)).

(** [getPosts({}, { page: 1, limit: 20 })] *)
Definition page1_limit20 : PaginationOptions := mkPagination (Some 1) (Some 20) None.

(** Feed reads sorted by like count, one post per page. *)
Definition likes_filters : PostFilters := mkFilters None (Some LIKE_COUNT) None.







End Inputs.

(** Inputs of the further properties. *)
Module Inputs_extra.

Local Open Scope Z_scope.

(** Three posts of the active category ["c1"] with 3, 7 and 5 likes. *)
Definition db3 : DB :=
  mkDB [mkPost "a" "c1" "a1" 3 (Fin 0) 0; mkPost "b" "c1" "a1" 7 (Fin 0) 1;
        mkPost "c" "c1" "a1" 5 (Fin 0) 2] [Inputs.cat1] [].

(** A post whose stored score is [Infinity], and one whose score is NaN. *)
Definition hot_post : Post := mkPost "h" "c1" "a1" 120 PInf 0.

Definition nan_post : Post := mkPost "k" "c1" "a1" 0 NaN 0.

(** The ranking sets after an update of [hot_post], and Redis up holding
    them. *)
Definition hot_ranked : HotSets := run_ranking [] [EvUpdate hot_post].

Definition redis_ranked : Redis := mkRedis [] [] [] hot_ranked (fun _ _ => false).

Definition created_at_filters : PostFilters := mkFilters None (Some CREATED_AT) None.

(** [getPosts({}, { page: 1, limit: 5 })] *)
Definition page1_limit5 : PaginationOptions := mkPagination (Some 1) (Some 5) None.

End Inputs_extra.

(* ================================================================== *)
(** ** Proofs                                                          *)
(* ================================================================== *)

Section ScoreFacts.

Local Open Scope R_scope.

Lemma Rltb_true (a b : R) : a < b -> Rltb a b = true.
Proof. intro H. unfold Rltb. destruct (Rlt_dec a b); [reflexivity | contradiction]. Qed.

Lemma Rltb_false (a b : R) : ~ a < b -> Rltb a b = false.
Proof. intro H. unfold Rltb. destruct (Rlt_dec a b); [contradiction | reflexivity]. Qed.

Lemma ln10_pos : 0 < ln 10.
Proof. rewrite <- ln_1. apply ln_increasing; lra. Qed.

(** Under the logarithmic algorithm a finite non-negative like count
    gives [log10(likeCount + 1)]. *)
Lemma relevance_log_fin (r : R) :
  0 <= r ->
  calculateRelevanceScore (Fin r) LOGARITHMIC = Fin (ln (r + 1) / ln 10).
Proof.
  intro Hr. unfold calculateRelevanceScore, max0, add, log10.
  rewrite Rmax_right by lra.
  rewrite Rltb_true by lra. reflexivity.
Qed.

Lemma max0_negative (l : num) :
  (l = NInf \/ exists r, l = Fin r /\ r < 0) -> max0 l = max0 (Fin 0).
Proof.
  intros [-> | [r [-> Hr]]]; unfold max0; rewrite (Rmax_left 0 0) by lra;
    [reflexivity|].
  rewrite Rmax_left by lra. reflexivity.
Qed.

End ScoreFacts.

Section ScoreFacts2.

Local Open Scope R_scope.

Lemma finalScore_log (r createdAt now : R) (config : ScoringConfig) :
  algorithm config = LOGARITHMIC -> 0 <= r ->
  finalScore (calculateScore (Fin r) createdAt config now) =
  Fin (ln (r + 1) / ln 10 +
       freshnessWeight config *
       calculateFreshnessScore ((now - createdAt) / (1000 * 60 * 60)) (maxAgeHours config)).
Proof.
  intros Halg Hr. unfold calculateScore. cbn [finalScore].
  rewrite Halg, relevance_log_fin by exact Hr. reflexivity.
Qed.

End ScoreFacts2.

Section C1_C7_C8.

Local Open Scope R_scope.

(** C1 (code_bug). [likePost] raises [likeCount] with a
    [findByIdAndUpdate] query update, so the [pre('save')] hook that
    recomputes [score] does not run: after a like of the fresh post
    ["p1"] (likeCount 0, score set at creation), the committed post has
    likeCount 1 and still the score of likeCount 0, which differs from the
    Score Model's value for likeCount 1 at the same instant. *)
Lemma C1_like_leaves_score_stale :
  find_post (db (snd (RedisSvc.likePost true "u1" "p1" Inputs.world1))) "p1"
    = Some (with_likeCount Inputs.post1 1) /\
  score (with_likeCount Inputs.post1 1) = score Inputs.post1 /\
  score Inputs.post1 <>
    finalScore (calculateScore (Fin (IZR 1)) (createdAt Inputs.post1)
                  DEFAULT_SCORING_CONFIG 0).
Proof.
  split; [reflexivity | split; [reflexivity |]].
  unfold Inputs.post1, PostSvc.preSaveScore. cbn [score createdAt likeCount].
  rewrite !finalScore_log by (reflexivity || (simpl; lra)).
  intro H. injection H as H.
  replace (IZR 0 + 1) with 1 in H by (simpl; lra). rewrite ln_1 in H.
  assert (0 < ln (IZR 1 + 1) / ln 10).
  { apply Rdiv_lt_0_compat; [| exact ln10_pos].
    rewrite <- ln_1. apply ln_increasing; simpl; lra. }
  simpl in H. lra.
Qed.

(** C7 (counterexample). NaN is not sanitised: [Math.max(0, NaN)] is
    NaN, so the score for likeCount NaN is NaN, not the score for
    likeCount 0. *)
Lemma C7_nan_not_sanitized :
  calculateScore NaN 0 DEFAULT_SCORING_CONFIG 0 <>
  calculateScore (Fin 0) 0 DEFAULT_SCORING_CONFIG 0.
Proof.
  intro H. apply (f_equal finalScore) in H.
  rewrite finalScore_log in H by (reflexivity || lra).
  unfold calculateScore in H. cbn in H. discriminate H.
Qed.

(** C7 (amended). [Math.max(0, likeCount)] replaces a negative like count
    (finite or -Infinity) by 0, so the score equals the score for
    likeCount 0; NaN and +Infinity pass the clamp, giving the final score
    NaN and +Infinity under every algorithm. *)
Theorem C7_clamps_negative_like_count :
  (forall (l : num) (createdAt now : R) (config : ScoringConfig),
     (l = NInf \/ exists r, l = Fin r /\ r < 0) ->
     calculateScore l createdAt config now = calculateScore (Fin 0) createdAt config now) /\
  (forall (createdAt now : R) (config : ScoringConfig),
     finalScore (calculateScore NaN createdAt config now) = NaN) /\
  (forall (createdAt now : R) (config : ScoringConfig),
     finalScore (calculateScore PInf createdAt config now) = PInf).
Proof.
  split; [| split].
  - intros l createdAt now config Hl. unfold calculateScore, calculateRelevanceScore.
    rewrite (max0_negative l Hl). reflexivity.
  - intros createdAt now config. unfold calculateScore. cbn [finalScore].
    destruct (algorithm config); reflexivity.
  - intros createdAt now config. unfold calculateScore. cbn [finalScore].
    destruct (algorithm config); cbn; try reflexivity.
    rewrite Rltb_true by lra. reflexivity.
Qed.

Lemma C7_clamps_negative_like_count_witness :
  calculateScore (Fin (-5)) 0 DEFAULT_SCORING_CONFIG 0 =
  calculateScore (Fin 0) 0 DEFAULT_SCORING_CONFIG 0.
Proof.
  apply (proj1 C7_clamps_negative_like_count (Fin (-5)) 0 0 DEFAULT_SCORING_CONFIG).
  right. exists (-5). split; [reflexivity | lra].
Defined.

(** C8. Under the logarithmic (BASE) algorithm, for the same creation
    time and the same [now], a larger non-negative like count gives a
    strictly larger final score. *)
Theorem C8_log_score_strictly_increasing (l1 l2 createdAt now : R)
    (config : ScoringConfig) :
  algorithm config = LOGARITHMIC -> 0 <= l1 -> l1 < l2 ->
  exists s1 s2,
    finalScore (calculateScore (Fin l1) createdAt config now) = Fin s1 /\
    finalScore (calculateScore (Fin l2) createdAt config now) = Fin s2 /\
    s1 < s2.
Proof.
  intros Halg H0 H12.
  rewrite !finalScore_log by (assumption || lra).
  eexists; eexists; split; [reflexivity | split; [reflexivity |]].
  apply Rplus_lt_compat_r. unfold Rdiv.
  apply Rmult_lt_compat_r; [apply Rinv_0_lt_compat, ln10_pos |].
  apply ln_increasing; lra.
Qed.

Lemma C8_log_score_strictly_increasing_witness :
  exists s1 s2,
    finalScore (calculateScore (Fin 0) 0 DEFAULT_SCORING_CONFIG 0) = Fin s1 /\
    finalScore (calculateScore (Fin 1) 0 DEFAULT_SCORING_CONFIG 0) = Fin s2 /\
    s1 < s2.
Proof.
  apply (C8_log_score_strictly_increasing 0 1 0 0 DEFAULT_SCORING_CONFIG);
    [reflexivity | lra | lra].
Defined.

End C1_C7_C8.

Section Likes.

(** C2. For an existing post: liking it when the Like record for
    [(user, post)] exists fails with AlreadyLiked, and unliking it when no
    such record exists fails with NotLiked; in both cases the store and
    Redis are left exactly as they were. This holds with and without
    transactions and whatever the state of the Redis flag. *)
Theorem C2_like_errors_leave_state_unchanged (useTransactions : bool)
    (userId postId : string) (w : World) :
  find_post (db w) postId <> None ->
  (like_exists (db w) userId postId = true ->
   RedisSvc.likePost useTransactions userId postId w = (Error EAlreadyLiked, w)) /\
  (like_exists (db w) userId postId = false ->
   RedisSvc.unlikePost useTransactions userId postId w = (Error ENotLiked, w)).
Proof.
  destruct w as [d r]. cbn [db redis]. intros Hpost.
  destruct (find_post d postId) as [p|] eqn:Hfind; [| congruence].
  split; intro Hl.
  - unfold RedisSvc.likePost, PostSvc.likePost, catch, bind, redis_cmd, throw, ret,
      transaction, PostSvc.findById, PostSvc.findOneLike, gets_db, PostSvc.saveLike.
    cbn [db redis].
    destruct (down r CRead (KUserLike postId userId));
      [| destruct (user_like_set r postId userId)]; cbn [db redis];
      try reflexivity;
      destruct useTransactions; cbn -[find_post like_exists]; rewrite Hfind;
      cbn -[find_post like_exists]; rewrite ?Hfind, Hl; reflexivity.
  - unfold RedisSvc.unlikePost, PostSvc.unlikePost, catch, bind, redis_cmd, throw, ret,
      transaction, PostSvc.findById, PostSvc.findOneLike, gets_db.
    cbn [db redis].
    destruct (down r CRead (KUserLike postId userId));
      [| destruct (user_like_set r postId userId)]; cbn [db redis negb];
      try reflexivity;
      destruct useTransactions; cbn -[find_post like_exists]; rewrite Hfind;
      cbn -[find_post like_exists]; rewrite ?Hfind, Hl; reflexivity.
Qed.

Lemma C2_like_errors_leave_state_unchanged_witness :
  RedisSvc.likePost true "u1" "p1" Inputs.world1_liked =
    (Error EAlreadyLiked, Inputs.world1_liked) /\
  RedisSvc.unlikePost false "u2" "p1" Inputs.world1_liked =
    (Error ENotLiked, Inputs.world1_liked).
Proof.
  assert (Hp : find_post (db Inputs.world1_liked) "p1" <> None)
    by (cbn; discriminate).
  split.
  - apply (proj1 (C2_like_errors_leave_state_unchanged true "u1" "p1" _ Hp)).
    reflexivity.
  - apply (proj2 (C2_like_errors_leave_state_unchanged false "u2" "p1" _ Hp)).
    reflexivity.
Defined.

Lemma catch_ret_tt (m : M unit) (w : World) :
  fst (catch m (fun _ => ret tt) w) = Ok tt.
Proof. unfold catch. destruct (m w) as [[[]|e] w']; reflexivity. Qed.

Lemma catch_then_ret {A} (m : M unit) (x : A) (w : World) :
  fst ((catch m (fun _ => ret tt) ;;; ret x) w) = Ok x.
Proof. unfold bind, catch. destruct (m w) as [[[]|e] w']; reflexivity. Qed.

Lemma find_post_map_post (f : Post -> Post) (postId : string) (d : DB) :
  (forall p, post_id (f p) = post_id p) ->
  find_post (PostSvc.map_post f postId d) postId = option_map f (find_post d postId).
Proof.
  intro Hf. unfold find_post, PostSvc.map_post, PostSvc.set_posts. cbn [posts].
  induction (posts d) as [|p ps IH]; [reflexivity|].
  cbn [map find]. destruct (String.eqb (post_id p) postId) eqn:E.
  - rewrite Hf, E. reflexivity.
  - rewrite E. exact IH.
Qed.

Lemma incLikeCount_found (postId : string) (delta : Z) (w : World) (p : Post) :
  find_post (db w) postId = Some p ->
  PostSvc.incLikeCount postId delta w =
    (Ok (Some (with_likeCount p (likeCount p + delta))),
     mkWorld (PostSvc.map_post (fun q => with_likeCount q (likeCount q + delta)) postId (db w))
             (redis w)).
Proof.
  intro H. unfold PostSvc.incLikeCount, bind, modify_db, PostSvc.findById, gets_db.
  cbn [db redis]. rewrite find_post_map_post by reflexivity. rewrite H. reflexivity.
Qed.

Lemma redis_likePost_flag (useTransactions : bool) (userId postId : string) (w : World) :
  flag_set w userId postId = true ->
  RedisSvc.likePost useTransactions userId postId w = (Error EAlreadyLiked, w).
Proof.
  destruct w as [d r]. unfold flag_set. cbn [redis].
  unfold RedisSvc.likePost, bind, catch, redis_cmd, throw, ret. cbn [redis db].
  destruct (down r CRead (KUserLike postId userId)); [discriminate|].
  cbn. intros ->. reflexivity.
Qed.

Lemma redis_likePost_no_flag (useTransactions : bool) (userId postId : string) (w : World) :
  flag_set w userId postId = false ->
  match PostSvc.likePost useTransactions userId postId w with
  | (Error e, w') => RedisSvc.likePost useTransactions userId postId w = (Error e, w')
  | (Ok r, _) => fst (RedisSvc.likePost useTransactions userId postId w) = Ok r
  end.
Proof.
  destruct w as [d r]. unfold flag_set. cbn [redis].
  intro Hf.
  assert (Hpre : forall A (k : M A),
    bind (catch (exists_ <- redis_cmd CRead (KUserLike postId userId)
                   (fun r0 => (user_like_set r0 postId userId, r0)) ;;
                 if exists_ then throw EAlreadyLiked else ret tt)
                (fun e => match e with
                          | EAlreadyLiked => throw EAlreadyLiked
                          | _ => ret tt end))
         (fun _ => k) (mkWorld d r) = k (mkWorld d r)).
  { intros A k. unfold bind, catch, redis_cmd, throw, ret. cbn [redis db].
    destruct (down r CRead (KUserLike postId userId)); [reflexivity|].
    cbn in Hf. rewrite Hf. reflexivity. }
  unfold RedisSvc.likePost. rewrite Hpre.
  destruct (PostSvc.likePost useTransactions userId postId (mkWorld d r))
    as [[res|e] w'] eqn:E.
  - unfold bind at 1. rewrite E. apply catch_then_ret.
  - unfold bind at 1. rewrite E. reflexivity.
Qed.

(** The outcome of [PostService.likePost] from the store state. *)
Lemma db_likePost_cases (useTransactions : bool) (userId postId : string) (w : World) :
  match find_post (db w) postId with
  | None => PostSvc.likePost useTransactions userId postId w = (Error EPostNotFound, w)
  | Some _ =>
      if like_exists (db w) userId postId
      then PostSvc.likePost useTransactions userId postId w = (Error EAlreadyLiked, w)
      else exists r w', PostSvc.likePost useTransactions userId postId w = (Ok r, w')
  end.
Proof.
  destruct w as [d r]. cbn [db].
  destruct (find_post d postId) as [p|] eqn:Hfind.
  - destruct (like_exists d userId postId) eqn:Hl.
    + unfold PostSvc.likePost, catch, bind, throw, ret, transaction, PostSvc.findById,
        PostSvc.findOneLike, gets_db, PostSvc.saveLike.
      destruct useTransactions; cbn -[find_post like_exists PostSvc.incLikeCount];
        rewrite Hfind; cbn -[find_post like_exists PostSvc.incLikeCount];
        rewrite ?Hfind, Hl; reflexivity.
    + set (d' := PostSvc.set_likes d (likes d ++ [(userId, postId)])%list).
      assert (Hf' : find_post d' postId = Some p) by exact Hfind.
      pose proof (incLikeCount_found postId 1 (mkWorld d' r) p Hf') as Hi.
      unfold PostSvc.likePost, catch, bind, throw, ret, transaction, PostSvc.findById,
        PostSvc.findOneLike, gets_db, PostSvc.saveLike.
      destruct useTransactions;
        repeat (progress (cbn -[find_post like_exists PostSvc.incLikeCount];
                          rewrite ?Hfind, ?Hl));
        fold d'; rewrite Hi; eauto.
  - unfold PostSvc.likePost, catch, bind, throw, ret, transaction, PostSvc.findById, gets_db.
    destruct useTransactions; cbn -[find_post]; rewrite Hfind; reflexivity.
Qed.

(** C6 (counterexample). AlreadyLiked is not decided by the unique index
    alone: with the Redis flag [user_like:p1:u1] set and no Like record
    for ["u1"], ["p1"], [likePost] returns AlreadyLiked without attempting
    the insert. *)
Lemma C6_already_liked_from_redis_flag :
  RedisSvc.likePost true "u1" "p1" Inputs.world_flag_only =
    (Error EAlreadyLiked, Inputs.world_flag_only) /\
  like_exists (db Inputs.world_flag_only) "u1" "p1" = false /\
  find_post (db Inputs.world_flag_only) "p1" <> None.
Proof.
  split; [reflexivity | split; [reflexivity | cbn; discriminate]].
Qed.

(** C6 (amended). [likePost] returns AlreadyLiked exactly when the Redis
    flag [user_like:<post>:<user>] can be read and is set (checked before
    anything else), or the post exists and a Like record for
    [(user, post)] exists (found by [Like.findOne] inside the transaction,
    or by the unique-index violation of the insert without transactions);
    the store and Redis are then unchanged. *)
Theorem C6_already_liked_signals (useTransactions : bool) (userId postId : string)
    (w : World) :
  (fst (RedisSvc.likePost useTransactions userId postId w) = Error EAlreadyLiked <->
   flag_set w userId postId = true \/
   (find_post (db w) postId <> None /\ like_exists (db w) userId postId = true)) /\
  (fst (RedisSvc.likePost useTransactions userId postId w) = Error EAlreadyLiked ->
   snd (RedisSvc.likePost useTransactions userId postId w) = w).
Proof.
  destruct (flag_set w userId postId) eqn:Hflag.
  - rewrite (redis_likePost_flag useTransactions userId postId w Hflag).
    cbn. split; [split; auto | auto].
  - pose proof (redis_likePost_no_flag useTransactions userId postId w Hflag) as Hr.
    pose proof (db_likePost_cases useTransactions userId postId w) as Hd.
    destruct (find_post (db w) postId) as [p|] eqn:Hf.
    + destruct (like_exists (db w) userId postId) eqn:Hl.
      * rewrite Hd in Hr. rewrite Hr. cbn.
        split; [split; [intros _; right; split; [discriminate | reflexivity] | auto] | auto].
      * destruct Hd as [res [w' Hd]]. rewrite Hd in Hr. rewrite Hr.
        split; [split; [discriminate | intros [H | [_ H]]; discriminate] | discriminate].
    + rewrite Hd in Hr. rewrite Hr. cbn.
      split; [split; [discriminate | intros [H | [H _]]; [discriminate | congruence]] |
              discriminate].
Qed.

Lemma C6_already_liked_signals_witness :
  fst (RedisSvc.likePost false "u1" "p1" Inputs.world1_liked) = Error EAlreadyLiked.
Proof.
  apply (proj2 (proj1 (C6_already_liked_signals false "u1" "p1" Inputs.world1_liked))).
  right. split; [cbn; discriminate | reflexivity].
Defined.

End Likes.

Section Ranking_proofs.

Local Open Scope Z_scope.

Lemma scope_eqb_eq (a b : Scope) : scope_eqb a b = true <-> a = b.
Proof.
  destruct a as [|x], b as [|y]; cbn; try (split; congruence).
  rewrite String.eqb_eq. split; congruence.
Qed.

Lemma scope_eqb_sym (a b : Scope) : scope_eqb a b = scope_eqb b a.
Proof. destruct a, b; cbn; try reflexivity. apply String.eqb_sym. Qed.

Lemma hot_lookup_filter (h : HotSets) (s s' : Scope) :
  scope_eqb s' s = false ->
  hot_lookup (filter (fun e => negb (scope_eqb (fst e) s)) h) s' = hot_lookup h s'.
Proof.
  intro Hne. induction h as [|[s0 z0] rest IH]; [reflexivity|].
  cbn [filter fst]. destruct (scope_eqb s0 s) eqn:E; cbn [negb hot_lookup].
  - apply scope_eqb_eq in E. subst s0. rewrite Hne. exact IH.
  - destruct (scope_eqb s' s0); [reflexivity | exact IH].
Qed.

Lemma hot_lookup_set (h : HotSets) (s s' : Scope) (z : zset) :
  hot_lookup (hot_set h s z) s' = if scope_eqb s' s then z else hot_lookup h s'.
Proof.
  unfold hot_set. cbn [hot_lookup].
  destruct (scope_eqb s' s) eqn:E; [reflexivity|].
  apply hot_lookup_filter, E.
Qed.

Lemma zrem_incl (m : string) (z : zset) : incl (zrem m z) z.
Proof. apply incl_filter. Qed.

Lemma zrem_length (m : string) (z : zset) :
  (List.length (zrem m z) <= List.length z)%nat.
Proof. apply filter_length_le. Qed.

Lemma zinsert_in (x e : string * num) (z : zset) :
  In e (zinsert x z) -> e = x \/ In e z.
Proof.
  induction z as [|y ys IH]; cbn [zinsert].
  - intros [H|[]]. left; congruence.
  - destruct (zentry_compare x y).
    + intros [H|H]; [left; congruence | right; exact H].
    + intros [H|H]; [left; congruence | right; exact H].
    + intros [H|H]; [right; left; exact H |].
      destruct (IH H) as [H'|H']; [left; exact H' | right; right; exact H'].
Qed.

Lemma zadd_in (sc : num) (m : string) (z : zset) (e : string * num) :
  In e (zadd sc m z) -> e = (m, sc) \/ In e z.
Proof.
  unfold zadd. intro H. destruct (zinsert_in _ _ _ H) as [H'|H'];
    [left; exact H' | right; exact (zrem_incl m z e H')].
Qed.

Lemma zremrangebyrank_incl (s t : Z) (z : zset) : incl (zremrangebyrank s t z) z.
Proof.
  unfold zremrangebyrank. destruct (rank_range _ s t) as [[a b]|]; [| apply incl_refl].
  intros e He. apply in_app_or in He. destruct He as [He|He].
  - rewrite <- (firstn_skipn (Z.to_nat a) z). apply in_or_app. left. exact He.
  - rewrite <- (firstn_skipn (Z.to_nat (b + 1)) z). apply in_or_app. right. exact He.
Qed.

(** Trimming with [ZREMRANGEBYRANK key 0 -(N+1)] keeps at most [N]
    members. *)
Lemma zremrangebyrank_trim_length (N : Z) (z : zset) :
  0 <= N ->
  Z.of_nat (List.length (zremrangebyrank 0 (- (N + 1)) z)) <= N.
Proof.
  intro HN. unfold zremrangebyrank, rank_range.
  set (L := Z.of_nat (List.length z)).
  assert (HL : L = Z.of_nat (List.length z)) by reflexivity.
  assert (Hneg : (- (N + 1) <? 0) = true) by (apply Z.ltb_lt; lia).
  cbv zeta. rewrite Z.ltb_irrefl, Hneg, Z.ltb_irrefl.
  destruct (Z.ltb_spec (L + - (N + 1)) 0);
    destruct (Z.leb_spec L 0); cbn [orb]; try lia.
  destruct (Z.leb_spec L (L + - (N + 1))); [lia|].
  rewrite length_app, length_firstn, length_skipn. lia.
Qed.

Lemma max_size_nonneg (s : Scope) : 0 <= max_size s.
Proof. destruct s; cbn; unfold MAX_HOT_POSTS_GLOBAL, MAX_HOT_POSTS_PER_CATEGORY; lia. Qed.

Lemma scope_ok_empty (s : Scope) : scope_ok [] s.
Proof. split; [cbn; apply max_size_nonneg | constructor]. Qed.

Lemma update_scope_ok (h : HotSets) (s0 : Scope) (postId : string) (sc : num) :
  (forall s, scope_ok h s) -> forall s, scope_ok (update_scope h s0 postId sc) s.
Proof.
  intros Hh s. unfold update_scope, scope_ok.
  destruct (Hh s0) as [Hlen0 Hall0].
  destruct (is_hot sc) eqn:Hsc; rewrite hot_lookup_set;
    destruct (scope_eqb s s0) eqn:E; try apply Hh;
    apply scope_eqb_eq in E; subst s; split.
  - apply zremrangebyrank_trim_length, max_size_nonneg.
  - apply Forall_forall. intros e He.
    apply zremrangebyrank_incl, zadd_in in He. destruct He as [-> | He].
    + exact Hsc.
    + rewrite Forall_forall in Hall0. exact (Hall0 e He).
  - pose proof (zrem_length postId (hot_lookup h s0)). lia.
  - apply Forall_forall. intros e He. apply zrem_incl in He.
    rewrite Forall_forall in Hall0. exact (Hall0 e He).
Qed.

Lemma ranking_step_ok (h : HotSets) (ev : RankingEvent) :
  (forall s, scope_ok h s) -> forall s, scope_ok (ranking_step h ev) s.
Proof.
  intros Hh. destruct ev as [p | s0 |]; cbn [ranking_step].
  - unfold updateHotPostRankings. apply update_scope_ok, update_scope_ok, Hh.
  - intro s. unfold scope_ok. rewrite hot_lookup_set.
    destruct (scope_eqb s s0); [| apply Hh].
    split; [cbn; apply max_size_nonneg | constructor].
  - apply scope_ok_empty.
Qed.

Lemma run_ranking_ok (evs : list RankingEvent) (h : HotSets) :
  (forall s, scope_ok h s) -> forall s, scope_ok (run_ranking h evs) s.
Proof.
  unfold run_ranking. revert h.
  induction evs as [|ev evs IH]; intros h Hh; cbn [fold_left].
  - exact Hh.
  - apply IH, ranking_step_ok, Hh.
Qed.

(** C3. Starting from no ranking sets, after any sequence of
    [updateHotPostRankings] calls (for any posts, in any order), set
    expiries and [clearAllCaches], every scope's set holds at most its
    maximum (100 for the global scope, 50 for a category) and each member's
    stored score is at least [MIN_HOT_POST_SCORE] (3). *)
Theorem C3_ranking_sets_bounded (evs : list RankingEvent) (s : Scope) :
  scope_ok (run_ranking [] evs) s.
Proof. apply run_ranking_ok. exact scope_ok_empty. Qed.

End Ranking_proofs.

Section Store_proofs.

Local Open Scope Z_scope.

Lemma insert_sorted_perm (spec : SortSpec) (x : Post) (l : list Post) :
  Permutation (insert_sorted spec x l) (x :: l).
Proof.
  induction l as [|y ys IH]; cbn [insert_sorted]; [reflexivity|].
  destruct (spec_compare spec x y); try reflexivity.
  all: rewrite IH; apply perm_swap.
Qed.

Lemma fold_insert_perm (spec : SortSpec) (l acc : list Post) :
  Permutation (fold_left (fun acc x => insert_sorted spec x acc) l acc) (l ++ acc).
Proof.
  revert acc. induction l as [|x l IH]; intro acc; cbn [fold_left app]; [reflexivity|].
  rewrite IH, insert_sorted_perm. apply Permutation_sym, Permutation_middle.
Qed.

(** [$sort] only reorders the documents. *)
Lemma sort_posts_perm (spec : SortSpec) (l : list Post) :
  Permutation (sort_posts spec l) l.
Proof. unfold sort_posts. rewrite fold_insert_perm, app_nil_r. reflexivity. Qed.

Lemma in_firstn_incl {A} (n : nat) (l : list A) : incl (firstn n l) l.
Proof.
  intros x H. rewrite <- (firstn_skipn n l). apply in_or_app. left. exact H.
Qed.

Lemma in_skipn_incl {A} (n : nat) (l : list A) : incl (skipn n l) l.
Proof.
  intros x H. rewrite <- (firstn_skipn n l). apply in_or_app. right. exact H.
Qed.

Lemma filter_filter_andb {A} (f g : A -> bool) (l : list A) :
  filter g (filter f l) = filter (fun x => f x && g x) l.
Proof.
  induction l as [|x l IH]; cbn [filter]; [reflexivity|].
  destruct (f x); cbn [andb filter]; [destruct (g x) |]; rewrite ?IH; reflexivity.
Qed.

Lemma clampLimit_range (l : option Z) : 1 <= clampLimit l <= 100.
Proof. unfold clampLimit. lia. Qed.

(** The page [getPosts] returns: a window of at most [clampLimit] of
    the sorted visible posts. *)
Lemma getPosts_posts (d : DB) (f : PostFilters) (pg : PaginationOptions) :
  exists spec k,
    res_posts (Store.getPosts d f pg) =
    firstn (Z.to_nat (clampLimit (p_limit pg))) (skipn k (sort_posts spec (visible_posts d f))).
Proof. eexists; eexists. reflexivity. Qed.



Lemma getPosts_incl (d : DB) (f : PostFilters) (pg : PaginationOptions) :
  incl (res_posts (Store.getPosts d f pg)) (visible_posts d f).
Proof.
  destruct (getPosts_posts d f pg) as [spec [k ->]].
  intros x H. apply in_firstn_incl, in_skipn_incl in H.
  apply (Permutation_in _ (sort_posts_perm spec _)), H.
Qed.



(** C9. The store query of [getPosts] keeps only posts whose category
    exists and is active: each returned post has such a category, and the
    reported total counts exactly the posts that pass the request's
    category filter and have an active category. *)
Theorem C9_store_feed_only_active_categories (d : DB) (f : PostFilters)
    (pg : PaginationOptions) :
  (forall p, In p (res_posts (Store.getPosts d f pg)) ->
     exists c, In c (categories d) /\ cat_id c = categoryId p /\ isActive c = true) /\
  r_total (res_pagination (Store.getPosts d f pg)) =
    Z.of_nat (List.length
      (filter (fun p => category_filter f p && category_active (categories d) p) (posts d))).
Proof.
  split.
  - intros p Hp. apply getPosts_incl in Hp.
    unfold visible_posts in Hp. apply filter_In in Hp. destruct Hp as [_ Ha].
    unfold category_active in Ha. apply existsb_exists in Ha.
    destruct Ha as [c [Hc Hm]]. apply andb_true_iff in Hm. destruct Hm as [Hid Hact].
    apply String.eqb_eq in Hid. exists c. auto.
  - cbn [Store.getPosts res_pagination r_total]. unfold visible_posts.
    rewrite filter_filter_andb. reflexivity.
Qed.




End Store_proofs.

Section Hybrid_proofs.

Local Open Scope Z_scope.

Lemma find_post_some (d : DB) (id : string) (p : Post) :
  find_post d id = Some p -> In p (posts d) /\ post_id p = id.
Proof.
  unfold find_post. intro H. apply find_some in H. destruct H as [Hin Heq].
  apply String.eqb_eq in Heq. auto.
Qed.

Lemma populate_in (d : DB) (ids : list string) (p : Post) :
  In p (populate d ids) -> In (post_id p) ids /\ In p (posts d).
Proof.
  unfold populate. intro H. apply in_flat_map in H. destruct H as [id [Hid Hp]].
  destruct (find_post d id) as [q|] eqn:E; [| destruct Hp].
  destruct Hp as [<- | []]. apply find_post_some in E. destruct E as [Hin <-]. auto.
Qed.











End Hybrid_proofs.

Section Cache_proofs.

Local Open Scope Z_scope.







End Cache_proofs.

Section Extra_store.

Local Open Scope Z_scope.

Lemma getPosts_sortOptions_used (d : DB) (f : PostFilters) (pg : PaginationOptions) :
  Store.getPosts d f pg =
  let page := Z.max 1 (or_default (p_page pg) 1) in
  let limit := clampLimit (p_limit pg) in
  let skipOffset :=
    match p_offset pg with
    | None => (page - 1) * limit
    | Some _ => Z.max 0 (or_default (p_offset pg) 0)
    end in
  let matched := visible_posts d f in
  let sorted := sort_posts (getPosts_sortOptions f) matched in
  let total := Z.of_nat (List.length matched) in
  {| res_posts := firstn (Z.to_nat limit) (skipn (Z.to_nat skipOffset) sorted);
     res_pagination :=
       {| r_page := match p_offset pg with Some _ => skipOffset / limit + 1 | None => page end;
          r_limit := limit;
          r_offset := skipOffset;
          r_total := total;
          r_totalPages := ceil_div total limit;
          r_hasNext := skipOffset + limit <? total;
          r_hasPrevious := 0 <? skipOffset;
          r_nextOffset :=
            if skipOffset + limit <? total then Some (skipOffset + limit) else None;
          r_prevOffset :=
            if 0 <? skipOffset then Some (Z.max 0 (skipOffset - limit)) else None |} |}.
Proof. reflexivity. Qed.

Lemma R_compare_antisym (a b : R) : R_compare a b = CompOpp (R_compare b a).
Proof.
  unfold R_compare.
  destruct (Rlt_dec a b), (Rlt_dec b a); cbn; try reflexivity; lra.
Qed.

Lemma num_compare_antisym (x y : num) : num_compare x y = CompOpp (num_compare y x).
Proof.
  destruct x, y; cbn [num_compare num_rank]; try reflexivity.
  apply R_compare_antisym.
Qed.

Lemma field_compare_antisym (f : SortField) (a b : Post) :
  field_compare f a b = CompOpp (field_compare f b a).
Proof.
  destruct f; cbn [field_compare].
  - apply num_compare_antisym.
  - apply Z.compare_antisym.
  - apply R_compare_antisym.
Qed.

Lemma spec_compare_antisym (spec : SortSpec) (a b : Post) :
  spec_compare spec a b = CompOpp (spec_compare spec b a).
Proof.
  induction spec as [|[f dir] rest IH]; cbn [spec_compare]; [reflexivity|].
  rewrite (field_compare_antisym f a b).
  destruct (field_compare f b a); cbn [CompOpp]; [exact IH | |];
    destruct (dir =? 1); reflexivity.
Qed.

Definition spec_le (spec : SortSpec) (a b : Post) : Prop := spec_compare spec a b <> Gt.

Lemma insert_sorted_sorted (spec : SortSpec) (x : Post) (l : list Post) :
  Sorted (spec_le spec) l -> Sorted (spec_le spec) (insert_sorted spec x l).
Proof.
  induction l as [|y ys IH]; intro H; cbn [insert_sorted].
  - repeat constructor.
  - destruct (spec_compare spec x y) eqn:E.
    2: { constructor; [exact H | constructor; unfold spec_le; congruence]. }
    all: assert (Hyx : spec_le spec y x)
      by (unfold spec_le; rewrite spec_compare_antisym, E; discriminate).
    all: apply Sorted_inv in H; destruct H as [Hys Hhd];
      constructor; [exact (IH Hys) |].
    all: destruct ys as [|z zs]; cbn [insert_sorted]; [constructor; exact Hyx|].
    all: destruct (spec_compare spec x z); constructor; try exact Hyx;
      inversion Hhd; assumption.
Qed.

(** [$sort] puts the documents in the order of the specification. *)
Lemma sort_posts_sorted (spec : SortSpec) (l : list Post) :
  Sorted (spec_le spec) (sort_posts spec l).
Proof.
  unfold sort_posts.
  assert (Hgen : forall acc, Sorted (spec_le spec) acc ->
            Sorted (spec_le spec) (fold_left (fun acc x => insert_sorted spec x acc) l acc)).
  { induction l as [|x l IH]; intros acc Hacc; cbn [fold_left]; [exact Hacc|].
    apply IH, insert_sorted_sorted, Hacc. }
  apply Hgen. constructor.
Qed.

Lemma Sorted_skipn {A} (Rel : A -> A -> Prop) (n : nat) (l : list A) :
  Sorted Rel l -> Sorted Rel (skipn n l).
Proof.
  revert l. induction n as [|n IH]; intros l H; [exact H|].
  destruct l as [|x l]; [constructor|]. cbn [skipn].
  apply IH. apply Sorted_inv in H. apply H.
Qed.

Lemma Sorted_firstn {A} (Rel : A -> A -> Prop) (n : nat) (l : list A) :
  Sorted Rel l -> Sorted Rel (firstn n l).
Proof.
  revert l. induction n as [|n IH]; intros l H; [constructor|].
  destruct l as [|x l]; [constructor|]. cbn [firstn].
  apply Sorted_inv in H. destruct H as [Hl Hhd].
  constructor; [apply IH, Hl|].
  destruct n as [|n]; [constructor|]. destruct l as [|y l]; [constructor|].
  cbn [firstn]. constructor. inversion Hhd. assumption.
Qed.

Lemma Sorted_weaken {A} (R1 R2 : A -> A -> Prop) (l : list A) :
  (forall a b, R1 a b -> R2 a b) -> Sorted R1 l -> Sorted R2 l.
Proof.
  intros Himp H. induction H as [|x l Hl IH Hhd]; constructor; [exact IH|].
  destruct Hhd; constructor. apply Himp. assumption.
Qed.

Lemma X1_aux_sorted (d : DB) (f : PostFilters) (pg : PaginationOptions) :
  Sorted (spec_le (getPosts_sortOptions f)) (res_posts (Store.getPosts d f pg)).
Proof.
  rewrite getPosts_sortOptions_used. cbn zeta. cbn [res_posts].
  apply Sorted_firstn, Sorted_skipn, sort_posts_sorted.
Qed.


(** X2. Sorting by like count (descending unless [ASC]) gives a page whose
    like counts never increase from one post to the next. *)
Theorem X2_like_count_page_descending (d : DB) (f : PostFilters) (pg : PaginationOptions) :
  f_sortBy f = Some LIKE_COUNT -> f_order f <> Some ASC ->
  Sorted (fun a b => likeCount b <= likeCount a) (res_posts (Store.getPosts d f pg)).
Proof.
  intros Hs Ho.
  apply (Sorted_weaken (spec_le (getPosts_sortOptions f))); [|apply X1_aux_sorted].
  intros a b Hab. unfold spec_le, getPosts_sortOptions in Hab.
  rewrite Hs in Hab. cbn [needsScoring buildSortOptions spec_compare field_compare] in Hab.
  destruct (f_order f) as [[|]|]; [congruence| |];
    cbn in Hab; destruct (Z.compare_spec (likeCount a) (likeCount b)); cbn in Hab;
    try lia; congruence.
Qed.

Lemma X2_like_count_page_descending_witness :
  Sorted (fun a b => likeCount b <= likeCount a)
    (res_posts (Store.getPosts Inputs_extra.db3 Inputs.likes_filters Inputs.page1_limit20)).
Proof.
  apply X2_like_count_page_descending; [reflexivity | discriminate].
Defined.

Lemma sort_posts_length (spec : SortSpec) (l : list Post) :
  List.length (sort_posts spec l) = List.length l.
Proof. apply Permutation_length, sort_posts_perm. Qed.

Lemma getPosts_shape (d : DB) (f : PostFilters) (pg : PaginationOptions) :
  let R := Store.getPosts d f pg in
  let P := res_pagination R in
  let total := Z.of_nat (List.length (visible_posts d f)) in
  0 <= r_offset P /\ 1 <= r_limit P <= 100 /\
  res_posts R = firstn (Z.to_nat (r_limit P))
                  (skipn (Z.to_nat (r_offset P))
                     (sort_posts (getPosts_sortOptions f) (visible_posts d f))) /\
  r_total P = total /\
  r_totalPages P = ceil_div total (r_limit P) /\
  r_hasNext P = (r_offset P + r_limit P <? total) /\
  r_hasPrevious P = (0 <? r_offset P).
Proof.
  rewrite getPosts_sortOptions_used. cbn zeta. cbn [res_posts res_pagination
    r_offset r_limit r_total r_totalPages r_hasNext r_hasPrevious].
  pose proof (clampLimit_range (p_limit pg)).
  repeat split; try reflexivity; try lia.
  destruct (p_offset pg); nia.
Qed.

Lemma length_window {A} (n k : nat) (l : list A) :
  List.length (firstn n (skipn k l)) = Nat.min n (List.length l - k).
Proof. rewrite length_firstn, length_skipn. reflexivity. Qed.

Lemma page_length_formula (d : DB) (f : PostFilters) (pg : PaginationOptions) :
  let P := res_pagination (Store.getPosts d f pg) in
  Z.of_nat (List.length (res_posts (Store.getPosts d f pg))) =
  Z.min (r_limit P) (Z.max 0 (r_total P - r_offset P)).
Proof.
  destruct (getPosts_shape d f pg) as (Hoff & Hlim & Hposts & Htot & _).
  cbn zeta. rewrite Hposts, length_window, Htot.
  rewrite sort_posts_length. lia.
Qed.

(** X3. A page holds [limit] posts, or the posts left after its offset
    when fewer remain, and none past the end. *)
Theorem X3_page_length (d : DB) (f : PostFilters) (pg : PaginationOptions) :
  let P := res_pagination (Store.getPosts d f pg) in
  Z.of_nat (List.length (res_posts (Store.getPosts d f pg))) =
  Z.min (r_limit P) (Z.max 0 (r_total P - r_offset P)).
Proof. apply page_length_formula. Qed.

(** X4. [hasNext] is set exactly when posts remain after the page. *)
Theorem X4_hasNext_iff_more (d : DB) (f : PostFilters) (pg : PaginationOptions) :
  let R := Store.getPosts d f pg in
  r_hasNext (res_pagination R) = true <->
  r_offset (res_pagination R) + Z.of_nat (List.length (res_posts R)) < r_total (res_pagination R).
Proof.
  destruct (getPosts_shape d f pg) as (Hoff & Hlim & Hposts & Htot & _ & Hnext & _).
  cbn zeta. rewrite Hnext, Z.ltb_lt, Hposts, length_window, Htot, sort_posts_length.
  lia.
Qed.

(** X5. [totalPages] is the least number of pages of [limit] posts that
    holds every matching post: zero for no post. *)
Theorem X5_totalPages_cover (d : DB) (f : PostFilters) (pg : PaginationOptions) :
  let P := res_pagination (Store.getPosts d f pg) in
  (r_total P = 0 -> r_totalPages P = 0) /\
  (0 < r_total P ->
     (r_totalPages P - 1) * r_limit P < r_total P <= r_totalPages P * r_limit P).
Proof.
  destruct (getPosts_shape d f pg) as (Hoff & Hlim & _ & Htot & Htp & _).
  cbn zeta. rewrite Htp, Htot. unfold ceil_div.
  generalize dependent (r_limit (res_pagination (Store.getPosts d f pg))).
  generalize (Z.of_nat (List.length (visible_posts d f))).
  intros t l Hl.
  pose proof (Z.div_mod (- t) l ltac:(lia)).
  pose proof (Z.mod_pos_bound (- t) l ltac:(lia)).
  split; intro Ht.
  - subst t. reflexivity.
  - nia.
Qed.






End Extra_store.

Section Extra_ranking.

Local Open Scope Z_scope.










Lemma zinsert_perm (e : string * num) (z : zset) : Permutation (zinsert e z) (e :: z).
Proof.
  induction z as [|y ys IH]; cbn [zinsert]; [reflexivity|].
  destruct (zentry_compare e y); try reflexivity.
  rewrite IH. apply perm_swap.
Qed.




Lemma zrem_not_in (m : string) (z : zset) : ~ In m (map fst (zrem m z)).
Proof.
  intro H. apply in_map_iff in H. destruct H as [[m' x] [Hm Hin]].
  cbn [fst] in Hm. subst m'. unfold zrem in Hin. apply filter_In in Hin.
  destruct Hin as [_ Hb]. cbn [fst] in Hb. rewrite String.eqb_refl in Hb. discriminate.
Qed.


Lemma zremrangebyrank_trim (N : Z) (z : zset) :
  0 <= N ->
  zremrangebyrank 0 (- (N + 1)) z = skipn (List.length z - Z.to_nat N) z.
Proof.
  intro HN. unfold zremrangebyrank, rank_range. rewrite Z.ltb_irrefl. cbv zeta.
  assert (Hneg : (- (N + 1) <? 0) = true) by (apply Z.ltb_lt; lia).
  rewrite Hneg, Z.ltb_irrefl.
  set (len := List.length z).
  destruct (Z.ltb_spec (Z.of_nat len + - (N + 1)) 0);
    destruct (Z.leb_spec (Z.of_nat len) 0); cbn [orb].
  - replace (len - Z.to_nat N)%nat with 0%nat by lia. reflexivity.
  - replace (len - Z.to_nat N)%nat with 0%nat by lia. reflexivity.
  - lia.
  - destruct (Z.leb_spec (Z.of_nat len) (Z.of_nat len + - (N + 1))); [lia|].
    cbn [Z.to_nat firstn app]. f_equal. lia.
Qed.










(** X8. The trim [ZREMRANGEBYRANK key 0 -(N+1)] of
    [updateHotPostRankings] keeps exactly the [N] highest-ranked entries
    (the whole set when it has at most [N]). *)
Theorem X8_trim_keeps_top (N : Z) (z : zset) :
  0 <= N ->
  zremrangebyrank 0 (- (N + 1)) z = skipn (List.length z - Z.to_nat N) z.
Proof. apply zremrangebyrank_trim. Qed.

Lemma X8_trim_keeps_top_witness :
  zremrangebyrank 0 (- (2 + 1)) Inputs.hot_global =
  skipn (List.length Inputs.hot_global - Z.to_nat 2) Inputs.hot_global.
Proof. apply X8_trim_keeps_top. lia. Defined.



Lemma scope_global_category (c : string) : scope_eqb SGlobal (SCategory c) = false.
Proof. reflexivity. Qed.

Lemma scope_category_refl (c : string) : scope_eqb (SCategory c) (SCategory c) = true.
Proof. apply String.eqb_refl. Qed.

(** The two sets an update touches, read back after it. *)
Lemma updateHotPostRankings_lookups (h : HotSets) (p : Post) :
  let sc := score_or_zero (score p) in
  let h1 := update_scope h SGlobal (post_id p) sc in
  hot_lookup (updateHotPostRankings h p) SGlobal = hot_lookup h1 SGlobal /\
  hot_lookup (updateHotPostRankings h p) (SCategory (categoryId p)) =
  (if is_hot sc
   then zremrangebyrank 0 (- (max_size (SCategory (categoryId p)) + 1))
          (zadd sc (post_id p) (hot_lookup h (SCategory (categoryId p))))
   else zrem (post_id p) (hot_lookup h (SCategory (categoryId p)))).
Proof.
  cbv zeta. unfold updateHotPostRankings. cbv zeta.
  set (c := categoryId p). set (sc := score_or_zero (score p)).
  assert (Hcat : hot_lookup (update_scope h SGlobal (post_id p) sc) (SCategory c) =
                 hot_lookup h (SCategory c)).
  { unfold update_scope. destruct (is_hot sc); rewrite hot_lookup_set; reflexivity. }
  split.
  - unfold update_scope at 1. destruct (is_hot sc); rewrite hot_lookup_set; reflexivity.
  - unfold update_scope at 1. rewrite Hcat.
    destruct (is_hot sc); rewrite hot_lookup_set, scope_category_refl; reflexivity.
Qed.

Lemma update_scope_global (h : HotSets) (postId : string) (sc : num) :
  hot_lookup (update_scope h SGlobal postId sc) SGlobal =
  if is_hot sc
  then zremrangebyrank 0 (- (max_size SGlobal + 1)) (zadd sc postId (hot_lookup h SGlobal))
  else zrem postId (hot_lookup h SGlobal).
Proof. unfold update_scope. destruct (is_hot sc); rewrite hot_lookup_set; reflexivity. Qed.

(** X11. An update of a post whose score is below the threshold removes
    it from the global set and from its category's set. *)
Theorem X11_cold_post_removed (h : HotSets) (p : Post) :
  is_hot (score_or_zero (score p)) = false ->
  ~ In (post_id p) (map fst (hot_lookup (updateHotPostRankings h p) SGlobal)) /\
  ~ In (post_id p) (map fst (hot_lookup (updateHotPostRankings h p) (SCategory (categoryId p)))).
Proof.
  intro Hc. destruct (updateHotPostRankings_lookups h p) as [Hg Hk]. cbv zeta in Hg, Hk.
  rewrite Hg, Hk, update_scope_global, Hc. split; apply zrem_not_in.
Qed.

Lemma X11_cold_post_removed_witness :
  ~ In (post_id Inputs_extra.nan_post)
      (map fst (hot_lookup (updateHotPostRankings Inputs_extra.hot_ranked Inputs_extra.nan_post) SGlobal)) /\
  ~ In (post_id Inputs_extra.nan_post)
      (map fst (hot_lookup (updateHotPostRankings Inputs_extra.hot_ranked Inputs_extra.nan_post) (SCategory (categoryId Inputs_extra.nan_post)))).
Proof.
  apply X11_cold_post_removed.
  cbn. unfold Rleb, MIN_HOT_POST_SCORE. destruct (Rle_dec 3 0); [lra | reflexivity].
Defined.

Lemma zadd_entries (sc : num) (m : string) (z : zset) (x : num) :
  In (m, x) (zadd sc m z) -> x = sc.
Proof.
  intro H. unfold zadd in H. destruct (zinsert_in _ _ _ H) as [He|He]; [congruence|].
  exfalso. apply (zrem_not_in m z). apply (in_map fst) in He. exact He.
Qed.

(** X12. After an update of a post at or above the threshold, any entry
    for the post in the global or in its category's set carries its new
    score. *)
Theorem X12_hot_post_new_score (h : HotSets) (p : Post) (x : num) :
  is_hot (score_or_zero (score p)) = true ->
  (In (post_id p, x) (hot_lookup (updateHotPostRankings h p) SGlobal) \/
   In (post_id p, x) (hot_lookup (updateHotPostRankings h p) (SCategory (categoryId p)))) ->
  x = score_or_zero (score p).
Proof.
  intros Hh Hin. destruct (updateHotPostRankings_lookups h p) as [Hg Hk]. cbv zeta in Hg, Hk.
  rewrite Hg, Hk, update_scope_global, Hh in Hin.
  destruct Hin as [Hin|Hin]; apply zremrangebyrank_incl in Hin; exact (zadd_entries _ _ _ _ Hin).
Qed.

Lemma X12_hot_post_new_score_witness :
  PInf = score_or_zero (score Inputs_extra.hot_post).
Proof.
  apply (X12_hot_post_new_score [] Inputs_extra.hot_post PInf); [reflexivity|].
  left. vm_compute. left. reflexivity.
Defined.

Lemma zadd_length (sc : num) (m : string) (z : zset) :
  List.length (zadd sc m z) = S (List.length (zrem m z)).
Proof. unfold zadd. apply (Permutation_length (zinsert_perm (m, sc) (zrem m z))). Qed.

Lemma zadd_in_self (sc : num) (m : string) (z : zset) : In (m, sc) (zadd sc m z).
Proof. unfold zadd. apply (Permutation_in _ (Permutation_sym (zinsert_perm _ _))). left. reflexivity. Qed.

Lemma trim_room (N : Z) (sc : num) (m : string) (z : zset) :
  (Z.of_nat (List.length z) < N) ->
  In (m, sc) (zremrangebyrank 0 (- (N + 1)) (zadd sc m z)).
Proof.
  intro Hl. rewrite zremrangebyrank_trim by lia.
  pose proof (zadd_length sc m z). pose proof (zrem_length m z).
  replace (List.length (zadd sc m z) - Z.to_nat N)%nat with 0%nat by lia.
  apply zadd_in_self.
Qed.

(** X13. A post at or above the threshold enters a set that holds fewer
    than its maximum (100 global, 50 per category) with its new score. *)
Theorem X13_hot_post_enters_when_room (h : HotSets) (p : Post) :
  is_hot (score_or_zero (score p)) = true ->
  (Z.of_nat (List.length (hot_lookup h SGlobal)) < MAX_HOT_POSTS_GLOBAL ->
   In (post_id p, score_or_zero (score p)) (hot_lookup (updateHotPostRankings h p) SGlobal)) /\
  (Z.of_nat (List.length (hot_lookup h (SCategory (categoryId p)))) < MAX_HOT_POSTS_PER_CATEGORY ->
   In (post_id p, score_or_zero (score p))
      (hot_lookup (updateHotPostRankings h p) (SCategory (categoryId p)))).
Proof.
  intros Hh. destruct (updateHotPostRankings_lookups h p) as [Hg Hk]. cbv zeta in Hg, Hk.
  rewrite Hg, Hk, update_scope_global, Hh. split; intro Hl; apply trim_room; exact Hl.
Qed.

Lemma X13_hot_post_enters_when_room_witness :
  (Z.of_nat (List.length (hot_lookup [(SGlobal, Inputs.hot_global)] SGlobal)) < MAX_HOT_POSTS_GLOBAL ->
   In (post_id Inputs_extra.hot_post, score_or_zero (score Inputs_extra.hot_post))
      (hot_lookup (updateHotPostRankings [(SGlobal, Inputs.hot_global)] Inputs_extra.hot_post) SGlobal)) /\
  (Z.of_nat (List.length (hot_lookup [(SGlobal, Inputs.hot_global)]
                            (SCategory (categoryId Inputs_extra.hot_post)))) < MAX_HOT_POSTS_PER_CATEGORY ->
   In (post_id Inputs_extra.hot_post, score_or_zero (score Inputs_extra.hot_post))
      (hot_lookup (updateHotPostRankings [(SGlobal, Inputs.hot_global)] Inputs_extra.hot_post)
         (SCategory (categoryId Inputs_extra.hot_post)))).
Proof. apply X13_hot_post_enters_when_room. reflexivity. Defined.

Lemma zrevrange_top (k : Z) (z : zset) :
  1 <= k -> zrevrange 0 (k - 1) z = map fst (firstn (Z.to_nat k) (rev z)).
Proof.
  intro Hk. unfold zrevrange, rank_range. rewrite Z.ltb_irrefl. cbv zeta.
  assert (Hs : (k - 1 <? 0) = false) by (apply Z.ltb_ge; lia).
  rewrite Hs, Z.ltb_irrefl, Hs. cbn [orb].
  destruct (Z.leb_spec (Z.of_nat (List.length z)) 0).
  - assert (List.length z = 0%nat) by lia. destruct z; [|discriminate].
    cbn [rev]. rewrite firstn_nil. reflexivity.
  - cbn [skipn Z.to_nat].
    destruct (Z.leb_spec (Z.of_nat (List.length z)) (k - 1)).
    + rewrite (firstn_all2 (n := Z.to_nat k)) by (rewrite length_rev; lia).
      rewrite firstn_all2 by (rewrite length_rev; lia). reflexivity.
    + f_equal. f_equal. lia.
Qed.

(** X14. With its key readable, [getHotPosts] returns the [limit]
    highest-ranked post ids of the scope, best first, and changes nothing. *)
Theorem X14_getHotPosts_top (c : option string) (limit : Z) (w : World) :
  1 <= limit -> down (redis w) CRead (KHot (hot_scope c)) = false ->
  getHotPosts c limit w =
  (Ok (map fst (firstn (Z.to_nat limit) (rev (hot_lookup (hot (redis w)) (hot_scope c))))), w).
Proof.
  intros Hl Hd. unfold getHotPosts, redis_cmd. rewrite Hd.
  rewrite zrevrange_top by exact Hl. destruct w. reflexivity.
Qed.

Lemma X14_getHotPosts_top_witness :
  getHotPosts None 3 Inputs.world_feed =
  (Ok (map fst (firstn (Z.to_nat 3) (rev (hot_lookup (hot (redis Inputs.world_feed)) (hot_scope None))))),
   Inputs.world_feed).
Proof. apply X14_getHotPosts_top; [lia | reflexivity]. Defined.

(** X15. Once the ranking sets have only been changed by updates,
    expiries and clears, [getHotPostsStats] reports at most 100 global
    posts and, as its top three, the three best-ranked entries, best
    first, each at or above the threshold. *)
Theorem X15_hot_stats (evs : list RankingEvent) (w : World) :
  hot (redis w) = run_ranking [] evs -> down (redis w) CRead (KHot SGlobal) = false ->
  let z := hot_lookup (hot (redis w)) SGlobal in
  getHotPostsStats w = (Ok (mkHotStats (Z.of_nat (List.length z)) (firstn 3 (rev z))), w) /\
  Z.of_nat (List.length z) <= 100 /\
  Forall (fun e => is_hot (snd e) = true) (firstn 3 (rev z)).
Proof.
  intros Hr Hd. cbv zeta.
  destruct (run_ranking_ok evs [] (fun s => scope_ok_empty s) SGlobal) as [Hlen Hall].
  rewrite <- Hr in Hlen, Hall. split; [|split].
  - unfold getHotPostsStats, bind, redis_cmd. rewrite Hd. cbn [db redis].
    destruct w as [d r]. cbn [redis db] in *. rewrite Hd.
    unfold zrevrange_withscores, rank_range. rewrite Z.ltb_irrefl. cbv zeta.
    rewrite Z.ltb_irrefl. cbn [Z.ltb Z.compare].
    destruct (Z.leb_spec (Z.of_nat (List.length (hot_lookup (hot r) SGlobal))) 0).
    + assert (Hz : List.length (hot_lookup (hot r) SGlobal) = 0%nat) by lia.
      destruct (hot_lookup (hot r) SGlobal); [reflexivity | discriminate].
    + cbn [orb]. destruct (Z.leb_spec (Z.of_nat (List.length (hot_lookup (hot r) SGlobal))) 2).
      * unfold ret. do 3 f_equal.
        rewrite (firstn_all2 (n := 3%nat)) by (rewrite length_rev; lia).
        apply firstn_all2. rewrite length_rev. lia.
      * reflexivity.
  - exact Hlen.
  - rewrite Forall_forall in Hall |- *. intros e He. apply Hall.
    apply in_rev, (in_firstn_incl 3 _ e He).
Qed.

Lemma X15_hot_stats_witness :
  let z := hot_lookup (hot Inputs_extra.redis_ranked) SGlobal in
  getHotPostsStats (mkWorld (db Inputs.world1) Inputs_extra.redis_ranked) =
    (Ok (mkHotStats (Z.of_nat (List.length z)) (firstn 3 (rev z))),
     mkWorld (db Inputs.world1) Inputs_extra.redis_ranked) /\
  Z.of_nat (List.length z) <= 100 /\
  Forall (fun e => is_hot (snd e) = true) (firstn 3 (rev z)).
Proof.
  apply (X15_hot_stats [EvUpdate Inputs_extra.hot_post]); reflexivity.
Defined.

End Extra_ranking.

Section Extra_likes.

Local Open Scope Z_scope.

Lemma find_post_set_likes (d : DB) (ls : list Like) (postId : string) :
  find_post (PostSvc.set_likes d ls) postId = find_post d postId.
Proof. reflexivity. Qed.

Lemma like_exists_map_post (f : Post -> Post) (postId : string) (d : DB) (u pid : string) :
  like_exists (PostSvc.map_post f postId d) u pid = like_exists d u pid.
Proof. reflexivity. Qed.

Lemma likeCount_or_zero_some (p : Post) : PostSvc.likeCount_or_zero (Some p) = likeCount p.
Proof. cbn. destruct (Z.eqb_spec (likeCount p) 0); [symmetry; exact e | reflexivity]. Qed.

Lemma like_exists_app (d : DB) (u pid : string) :
  like_exists (PostSvc.set_likes d (likes d ++ [(u, pid)])%list) u pid = true.
Proof.
  unfold like_exists, PostSvc.set_likes. cbn [likes]. apply existsb_exists.
  exists (u, pid). split; [apply in_or_app; right; left; reflexivity|].
  cbn [fst snd]. rewrite !String.eqb_refl. reflexivity.
Qed.

Definition liked_db (d : DB) (u pid : string) : DB :=
  PostSvc.map_post (fun q => with_likeCount q (likeCount q + 1)) pid
    (PostSvc.set_likes d (likes d ++ [(u, pid)])%list).

Lemma db_likePost_ok (ut : bool) (u pid : string) (d : DB) (r : Redis) (p : Post) :
  find_post d pid = Some p -> like_exists d u pid = false ->
  PostSvc.likePost ut u pid (mkWorld d r) =
  (Ok (mkLikeResult true (likeCount p + 1) (Some (with_likeCount p (likeCount p + 1)))),
   mkWorld (liked_db d u pid) r).
Proof.
  intros Hf Hl.
  assert (Hsave : PostSvc.saveLike u pid (mkWorld d r) =
                  (Ok tt, mkWorld (PostSvc.set_likes d (likes d ++ [(u, pid)])%list) r)).
  { unfold PostSvc.saveLike. cbn [db redis]. rewrite Hf, Hl. reflexivity. }
  assert (Hinc := incLikeCount_found pid 1
                    (mkWorld (PostSvc.set_likes d (likes d ++ [(u, pid)])%list) r) p Hf).
  cbn [db redis] in Hinc.
  destruct ut; unfold PostSvc.likePost.
  - unfold transaction, bind, PostSvc.findById, PostSvc.findOneLike, gets_db.
    cbn -[like_exists find_post PostSvc.saveLike PostSvc.incLikeCount].
    rewrite Hf. cbn -[like_exists find_post PostSvc.saveLike PostSvc.incLikeCount].
    rewrite Hl, Hsave, Hinc. unfold ret.
    rewrite likeCount_or_zero_some. reflexivity.
  - unfold bind, catch, PostSvc.findById, gets_db.
    cbn -[like_exists find_post PostSvc.saveLike PostSvc.incLikeCount].
    rewrite Hf. cbn -[like_exists find_post PostSvc.saveLike PostSvc.incLikeCount].
    rewrite Hsave, Hinc. reflexivity.
Qed.

(** X16. Liking an existing post the user has not liked records the like,
    raises the post's stored like count by one and returns the updated
    post; Redis is not touched. The same holds with and without
    transactions. *)
Theorem X16_like_effect (ut : bool) (u pid : string) (d : DB) (r : Redis) (p : Post) :
  find_post d pid = Some p -> like_exists d u pid = false ->
  let '(res, w') := PostSvc.likePost ut u pid (mkWorld d r) in
  res = Ok (mkLikeResult true (likeCount p + 1) (Some (with_likeCount p (likeCount p + 1)))) /\
  find_post (db w') pid = Some (with_likeCount p (likeCount p + 1)) /\
  like_exists (db w') u pid = true /\ redis w' = r.
Proof.
  intros Hf Hl. rewrite (db_likePost_ok ut u pid d r p Hf Hl).
  split; [reflexivity|]. cbn [db redis]. unfold liked_db.
  rewrite find_post_map_post by reflexivity. rewrite find_post_set_likes, Hf.
  split; [reflexivity|]. rewrite like_exists_map_post, like_exists_app. auto.
Qed.

Lemma X16_like_effect_witness :
  let '(res, w') := PostSvc.likePost false "u1" "p1" (mkWorld (db Inputs.world1) Inputs.redis_up) in
  res = Ok (mkLikeResult true (likeCount Inputs.post1 + 1)
              (Some (with_likeCount Inputs.post1 (likeCount Inputs.post1 + 1)))) /\
  find_post (db w') "p1" = Some (with_likeCount Inputs.post1 (likeCount Inputs.post1 + 1)) /\
  like_exists (db w') "u1" "p1" = true /\ redis w' = Inputs.redis_up.
Proof. apply X16_like_effect; reflexivity. Defined.

Definition unliked_db (ut : bool) (d : DB) (u pid : string) (p : Post) : DB :=
  let d2 := PostSvc.map_post (fun q => with_likeCount q (likeCount q + -1)) pid
              (PostSvc.set_likes d
                 (filter (fun l => negb (String.eqb (fst l) u && String.eqb (snd l) pid))
                    (likes d))) in
  if negb ut && (likeCount p + -1 <? 0)
  then PostSvc.map_post (fun q => with_likeCount q 0) pid d2
  else d2.

Lemma db_unlikePost_ok (ut : bool) (u pid : string) (d : DB) (r : Redis) (p : Post) :
  find_post d pid = Some p -> like_exists d u pid = true ->
  let v := if ut then likeCount p - 1 else Z.max 0 (likeCount p - 1) in
  PostSvc.unlikePost ut u pid (mkWorld d r) =
  (Ok (mkLikeResult false v (Some (with_likeCount p v))), mkWorld (unliked_db ut d u pid p) r).
Proof.
  intros Hf Hl. cbv zeta.
  set (d1 := PostSvc.set_likes d
               (filter (fun l => negb (String.eqb (fst l) u && String.eqb (snd l) pid))
                  (likes d))).
  assert (Hdel : PostSvc.deleteLike u pid (mkWorld d r) = (Ok tt, mkWorld d1 r)) by reflexivity.
  assert (Hinc := incLikeCount_found pid (-1) (mkWorld d1 r) p Hf).
  cbn [db redis] in Hinc.
  destruct ut; unfold PostSvc.unlikePost.
  - unfold transaction, bind, PostSvc.findById, PostSvc.findOneLike, gets_db.
    cbn -[like_exists find_post PostSvc.deleteLike PostSvc.incLikeCount].
    rewrite Hf. cbn -[like_exists find_post PostSvc.deleteLike PostSvc.incLikeCount].
    rewrite Hl. cbn [negb]. rewrite Hdel, Hinc. unfold ret.
    rewrite likeCount_or_zero_some. cbn [likeCount with_likeCount].
    replace (likeCount p + -1) with (likeCount p - 1) by lia. reflexivity.
  - unfold bind, PostSvc.findById, PostSvc.findOneLike, gets_db.
    cbn -[like_exists find_post PostSvc.deleteLike PostSvc.incLikeCount].
    rewrite Hf. cbn -[like_exists find_post PostSvc.deleteLike PostSvc.incLikeCount].
    rewrite Hl. cbn [negb]. rewrite Hdel, Hinc. unfold unliked_db. fold d1.
    cbn [likeCount with_likeCount negb andb].
    destruct (Z.ltb_spec (likeCount p + -1) 0).
    + replace (Z.max 0 (likeCount p - 1)) with 0 by lia. reflexivity.
    + replace (Z.max 0 (likeCount p - 1)) with (likeCount p + -1) by lia. reflexivity.
Qed.

Lemma like_exists_filter (d : DB) (u pid : string) :
  like_exists
    (PostSvc.set_likes d
       (filter (fun l => negb (String.eqb (fst l) u && String.eqb (snd l) pid)) (likes d)))
    u pid = false.
Proof.
  unfold like_exists, PostSvc.set_likes. cbn [likes].
  induction (likes d) as [|l ls IH]; [reflexivity|].
  cbn [filter]. destruct (String.eqb (fst l) u && String.eqb (snd l) pid) eqn:E;
    cbn [negb existsb orb]; [exact IH|]. rewrite E. exact IH.
Qed.

(** X17. Unliking a post the user has liked deletes the like and lowers
    the stored like count by one; without transactions a count that would
    become negative is stored and returned as 0, with transactions it is
    not clamped. Redis is not touched. *)
Theorem X17_unlike_effect (ut : bool) (u pid : string) (d : DB) (r : Redis) (p : Post) :
  find_post d pid = Some p -> like_exists d u pid = true ->
  let v := if ut then likeCount p - 1 else Z.max 0 (likeCount p - 1) in
  let '(res, w') := PostSvc.unlikePost ut u pid (mkWorld d r) in
  res = Ok (mkLikeResult false v (Some (with_likeCount p v))) /\
  find_post (db w') pid = Some (with_likeCount p v) /\
  like_exists (db w') u pid = false /\ redis w' = r.
Proof.
  intros Hf Hl. cbv zeta. rewrite (db_unlikePost_ok ut u pid d r p Hf Hl).
  split; [reflexivity|]. cbn [db redis]. unfold unliked_db.
  assert (Hf2 : find_post (PostSvc.map_post (fun q => with_likeCount q (likeCount q + -1)) pid
                  (PostSvc.set_likes d
                     (filter (fun l => negb (String.eqb (fst l) u && String.eqb (snd l) pid))
                        (likes d)))) pid = Some (with_likeCount p (likeCount p + -1))).
  { rewrite find_post_map_post by reflexivity. rewrite find_post_set_likes, Hf. reflexivity. }
  destruct ut; cbn [negb andb].
  - rewrite Hf2. replace (likeCount p + -1) with (likeCount p - 1) by lia.
    split; [reflexivity|]. rewrite like_exists_map_post, like_exists_filter. auto.
  - destruct (Z.ltb_spec (likeCount p + -1) 0).
    + rewrite find_post_map_post by reflexivity. rewrite Hf2.
      replace (Z.max 0 (likeCount p - 1)) with 0 by lia.
      split; [reflexivity|]. rewrite !like_exists_map_post, like_exists_filter. auto.
    + rewrite Hf2. replace (Z.max 0 (likeCount p - 1)) with (likeCount p + -1) by lia.
      split; [reflexivity|]. rewrite like_exists_map_post, like_exists_filter. auto.
Qed.

Lemma X17_unlike_effect_witness :
  let v := Z.max 0 (likeCount Inputs.post1 - 1) in
  let '(res, w') := PostSvc.unlikePost false "u1" "p1" (mkWorld (db Inputs.world1_liked) Inputs.redis_up) in
  res = Ok (mkLikeResult false v (Some (with_likeCount Inputs.post1 v))) /\
  find_post (db w') "p1" = Some (with_likeCount Inputs.post1 v) /\
  like_exists (db w') "u1" "p1" = false /\ redis w' = Inputs.redis_up.
Proof. apply (X17_unlike_effect false); reflexivity. Defined.

Lemma with_likeCount_same (p : Post) : with_likeCount p (likeCount p) = p.
Proof. destruct p. reflexivity. Qed.





(** Commands that leave the store alone. *)
Definition keeps_db {A} (m : M A) : Prop := forall w, db (snd (m w)) = db w.

Lemma keeps_db_ret {A} (a : A) : keeps_db (ret a).
Proof. intro w. reflexivity. Qed.

Lemma keeps_db_throw {A} (e : Err) : keeps_db (@throw A e).
Proof. intro w. reflexivity. Qed.

Lemma keeps_db_redis_cmd {A} (c : RCmd) (k : RKey) (f : Redis -> A * Redis) :
  keeps_db (redis_cmd c k f).
Proof.
  intro w. unfold redis_cmd. destruct (down (redis w) c k); [reflexivity|].
  destruct (f (redis w)). reflexivity.
Qed.

Lemma keeps_db_bind {A B} (m : M A) (k : A -> M B) :
  keeps_db m -> (forall a, keeps_db (k a)) -> keeps_db (bind m k).
Proof.
  intros Hm Hk w. unfold bind. specialize (Hm w).
  destruct (m w) as [[a|e] w'] eqn:E; cbn [snd] in *; [rewrite Hk|]; exact Hm.
Qed.

Lemma keeps_db_catch {A} (m : M A) (h : Err -> M A) :
  keeps_db m -> (forall e, keeps_db (h e)) -> keeps_db (catch m h).
Proof.
  intros Hm Hh w. unfold catch. specialize (Hm w).
  destruct (m w) as [[a|e] w'] eqn:E; cbn [snd] in *; [|rewrite Hh]; exact Hm.
Qed.

Lemma keeps_db_updateHot (p : option Post) : keeps_db (updateHotPostRankingsM p).
Proof.
  intro w. destruct p as [p|]; [|reflexivity]. unfold updateHotPostRankingsM.
  destruct (_ || _); reflexivity.
Qed.

Lemma keeps_db_bump (c : option string) : keeps_db (bumpFeedVersion c).
Proof.
  apply keeps_db_catch; [apply keeps_db_redis_cmd | intro; apply keeps_db_ret].
Qed.

(** [RedisPostService.likePost] with no readable flag: the store's
    outcome, the Redis follow-up only touching Redis. *)
Lemma redis_likePost_no_flag_db (ut : bool) (u pid : string) (w : World) :
  flag_set w u pid = false ->
  match PostSvc.likePost ut u pid w with
  | (Error e, w') => RedisSvc.likePost ut u pid w = (Error e, w')
  | (Ok res, w2) => exists w3, RedisSvc.likePost ut u pid w = (Ok res, w3) /\ db w3 = db w2
  end.
Proof.
  destruct w as [d r]. unfold flag_set. cbn [redis]. intro Hf.
  assert (Hpre : forall A (k : M A),
    bind (catch (exists_ <- redis_cmd CRead (KUserLike pid u)
                   (fun r0 => (user_like_set r0 pid u, r0)) ;;
                 if exists_ then throw EAlreadyLiked else ret tt)
                (fun e => match e with
                          | EAlreadyLiked => throw EAlreadyLiked
                          | _ => ret tt end))
         (fun _ => k) (mkWorld d r) = k (mkWorld d r)).
  { intros A k. unfold bind, catch, redis_cmd, throw, ret. cbn [redis db].
    destruct (down r CRead (KUserLike pid u)); [reflexivity|].
    cbn in Hf. rewrite Hf. reflexivity. }
  unfold RedisSvc.likePost. rewrite Hpre.
  destruct (PostSvc.likePost ut u pid (mkWorld d r)) as [[res|e] w2] eqn:E.
  - unfold bind at 1. rewrite E.
    set (blk := catch _ (fun _ => ret tt)).
    assert (Hk : keeps_db blk).
    { apply keeps_db_catch; [|intro; apply keeps_db_ret].
      apply keeps_db_bind; [apply keeps_db_redis_cmd|]. intros _.
      apply keeps_db_bind; [apply keeps_db_updateHot|]. intros _.
      apply keeps_db_bind; [apply keeps_db_bump|]. intros _. apply keeps_db_bump. }
    pose proof (catch_ret_tt (redis_cmd CWrite (KUserLike pid u)
       (fun r : Redis => (tt, set_user_likes r ((pid, u) :: user_likes r)));;;
     updateHotPostRankingsM (lr_post res);;;
     bumpFeedVersion (post_category (lr_post res));;; bumpFeedVersion None) w2) as Hok.
    fold blk in Hok.
    specialize (Hk w2). unfold bind.
    destruct (blk w2) as [[[]|e] w3]; cbn [fst snd] in *; [|discriminate].
    exists w3. split; [reflexivity | exact Hk].
  - unfold bind at 1. rewrite E. reflexivity.
Qed.

(** X19. After a successful like through the caching service, liking the
    same post again fails with [AlreadyLiked] and changes nothing, whether
    or not the Redis flag could be written. *)
Theorem X19_second_like_rejected (ut : bool) (u pid : string) (w w1 : World) (res : LikeResult) :
  RedisSvc.likePost ut u pid w = (Ok res, w1) ->
  RedisSvc.likePost ut u pid w1 = (Error EAlreadyLiked, w1).
Proof.
  intro H.
  assert (Hdb : find_post (db w1) pid <> None /\ like_exists (db w1) u pid = true).
  { destruct (flag_set w u pid) eqn:Ef.
    - rewrite (redis_likePost_flag ut u pid w Ef) in H. discriminate.
    - pose proof (redis_likePost_no_flag_db ut u pid w Ef) as Hn.
      pose proof (db_likePost_cases ut u pid w) as Hc.
      destruct (find_post (db w) pid) as [p|] eqn:Efind.
      + destruct (like_exists (db w) u pid) eqn:El.
        * rewrite Hc in Hn. rewrite Hn in H. discriminate.
        * destruct w as [d r]. cbn [db] in *.
          rewrite (db_likePost_ok ut u pid d r p Efind El) in Hn.
          destruct Hn as [w3 [Hw3 Hd3]]. rewrite H in Hw3. injection Hw3 as _ <-.
          rewrite Hd3. cbn [db]. unfold liked_db.
          rewrite find_post_map_post by reflexivity. rewrite find_post_set_likes, Efind.
          split; [discriminate|]. rewrite like_exists_map_post. apply like_exists_app.
      + rewrite Hc in Hn. rewrite Hn in H. discriminate. }
  destruct Hdb as [Hfind Hl].
  destruct (flag_set w1 u pid) eqn:Ef1; [apply redis_likePost_flag; exact Ef1|].
  pose proof (redis_likePost_no_flag_db ut u pid w1 Ef1) as Hn.
  pose proof (db_likePost_cases ut u pid w1) as Hc.
  destruct (find_post (db w1) pid); [|congruence].
  rewrite Hl in Hc. rewrite Hc in Hn. exact Hn.
Qed.

Lemma X19_second_like_rejected_witness :
  exists res w1,
    RedisSvc.likePost false "u1" "p1" Inputs.world1 = (Ok res, w1) /\
    RedisSvc.likePost false "u1" "p1" w1 = (Error EAlreadyLiked, w1).
Proof.
  eexists; eexists. split; [reflexivity|].
  eapply (X19_second_like_rejected false "u1" "p1" Inputs.world1). reflexivity.
Defined.

(** X20. When the [user_like] flag is readable and not set, unliking
    through the caching service fails with [NotLiked] before the store is
    consulted, and changes nothing, even if the store holds the like. *)
Theorem X20_unlike_refused_without_flag (ut : bool) (u pid : string) (w : World) :
  down (redis w) CRead (KUserLike pid u) = false ->
  user_like_set (redis w) pid u = false ->
  RedisSvc.unlikePost ut u pid w = (Error ENotLiked, w).
Proof.
  destruct w as [d r]. cbn [redis]. intros Hd Hs.
  unfold RedisSvc.unlikePost, bind, catch, redis_cmd, throw, ret. cbn [redis db].
  rewrite Hd, Hs. reflexivity.
Qed.

Lemma X20_unlike_refused_without_flag_witness :
  RedisSvc.unlikePost false "u1" "p1" Inputs.world1_liked = (Error ENotLiked, Inputs.world1_liked).
Proof. apply X20_unlike_refused_without_flag; reflexivity. Defined.

(** X21. Liking or unliking a post that is not in the store fails with
    [PostNotFound] and changes nothing, with or without transactions. *)
Theorem X21_missing_post (ut : bool) (u pid : string) (w : World) :
  find_post (db w) pid = None ->
  PostSvc.likePost ut u pid w = (Error EPostNotFound, w) /\
  PostSvc.unlikePost ut u pid w = (Error EPostNotFound, w).
Proof.
  intro Hf. split.
  - pose proof (db_likePost_cases ut u pid w) as Hc. rewrite Hf in Hc. exact Hc.
  - destruct w as [d r]. cbn [db] in Hf.
    destruct ut; unfold PostSvc.unlikePost, transaction, bind, PostSvc.findById, gets_db, throw;
      cbn -[find_post]; rewrite Hf; reflexivity.
Qed.

Lemma X21_missing_post_witness :
  PostSvc.likePost true "u1" "zz" Inputs.world1 = (Error EPostNotFound, Inputs.world1) /\
  PostSvc.unlikePost true "u1" "zz" Inputs.world1 = (Error EPostNotFound, Inputs.world1).
Proof. apply X21_missing_post. reflexivity. Defined.

(** X22. Unliking an existing post the user has not liked fails with
    [NotLiked] and changes nothing, with or without transactions. *)
Theorem X22_unlike_not_liked (ut : bool) (u pid : string) (w : World) (p : Post) :
  find_post (db w) pid = Some p -> like_exists (db w) u pid = false ->
  PostSvc.unlikePost ut u pid w = (Error ENotLiked, w).
Proof.
  destruct w as [d r]. cbn [db]. intros Hf Hl.
  destruct ut; unfold PostSvc.unlikePost, transaction, bind, PostSvc.findById,
    PostSvc.findOneLike, gets_db, throw;
    cbn -[find_post like_exists]; rewrite Hf; cbn -[find_post like_exists];
    rewrite Hl; reflexivity.
Qed.

Lemma X22_unlike_not_liked_witness :
  PostSvc.unlikePost false "u1" "p1" Inputs.world1 = (Error ENotLiked, Inputs.world1).
Proof. apply (X22_unlike_not_liked false "u1" "p1" Inputs.world1 Inputs.post1); reflexivity. Defined.

End Extra_likes.

Section Extra_score.

Local Open Scope R_scope.

Lemma ln2_pos : 0 < ln 2.
Proof. rewrite <- ln_1. apply ln_increasing; lra. Qed.

Lemma exp_le_1 (x : R) : x <= 0 -> exp x <= 1.
Proof.
  intro H. rewrite <- exp_0. destruct (Rle_lt_or_eq_dec x 0 H) as [Hl | ->].
  - left. apply exp_increasing, Hl.
  - right. reflexivity.
Qed.

Lemma freshness_bounds (age maxAge : R) :
  0 <= calculateFreshnessScore age maxAge <= 1.
Proof.
  unfold calculateFreshnessScore. cbv zeta.
  destruct (Rle_dec maxAge (Rmax 0 age)); [lra|].
  pose proof (exp_pos (- (ln 2 / 24) * Rmax 0 age)).
  pose proof (Rmax_l 0 age). pose proof ln2_pos.
  split; [lra|]. apply exp_le_1.
  assert (0 <= ln 2 / 24 * Rmax 0 age) by (apply Rmult_le_pos; [unfold Rdiv; apply Rmult_le_pos; lra | lra]).
  lra.
Qed.

(** X23. The freshness score lies between 0 and 1; it is 0 exactly when
    the age, with future creation dates counted as age 0, has reached the
    maximum age. *)
Theorem X23_freshness_range (age maxAge : R) :
  0 <= calculateFreshnessScore age maxAge <= 1 /\
  (calculateFreshnessScore age maxAge = 0 <-> maxAge <= Rmax 0 age).
Proof.
  split; [apply freshness_bounds|]. unfold calculateFreshnessScore. cbv zeta.
  destruct (Rle_dec maxAge (Rmax 0 age)) as [H|H]; split; intro; try lra.
  pose proof (exp_pos (- (ln 2 / 24) * Rmax 0 age)). lra.
Qed.



Lemma freshness_antitone (a1 a2 maxAge : R) :
  a1 <= a2 -> calculateFreshnessScore a2 maxAge <= calculateFreshnessScore a1 maxAge.
Proof.
  intro H. pose proof (freshness_bounds a1 maxAge).
  unfold calculateFreshnessScore in *. cbv zeta in *.
  destruct (Rle_dec maxAge (Rmax 0 a2)); [lra|].
  destruct (Rle_dec maxAge (Rmax 0 a1)).
  - pose proof (Rmax_l 0 a1). pose proof (Rmax_r 0 a1). pose proof (Rmax_l 0 a2).
    pose proof (Rmax_r 0 a2).
    exfalso. apply n. unfold Rmax in *. destruct (Rle_dec 0 a1), (Rle_dec 0 a2); lra.
  - assert (Hm : Rmax 0 a1 <= Rmax 0 a2).
    { unfold Rmax. destruct (Rle_dec 0 a1), (Rle_dec 0 a2); lra. }
    pose proof ln2_pos.
    assert (Hk : 0 < ln 2 / 24) by (unfold Rdiv; apply Rmult_lt_0_compat; lra).
    destruct (Rle_lt_or_eq_dec _ _ Hm) as [Hlt|Heq].
    + left. apply exp_increasing. nra.
    + rewrite Heq. right. reflexivity.
Qed.

(** X25. For a fixed post and configuration with a non-negative freshness
    weight, the score computed later is never higher: a finite score does
    not grow with time, and a non-finite one stays what it is. *)
Theorem X25_score_non_increasing_in_time (likes : num) (createdAt now1 now2 : R)
    (config : ScoringConfig) :
  0 <= freshnessWeight config -> now1 <= now2 ->
  match finalScore (calculateScore likes createdAt config now1),
        finalScore (calculateScore likes createdAt config now2) with
  | Fin s1, Fin s2 => s2 <= s1
  | x, y => x = y
  end.
Proof.
  intros Hw Hn. unfold calculateScore. cbn [finalScore]. cbv zeta.
  assert (Ha : (now1 - createdAt) / (1000 * 60 * 60) <= (now2 - createdAt) / (1000 * 60 * 60)).
  { unfold Rdiv. apply Rmult_le_compat_r; [left; apply Rinv_0_lt_compat; lra | lra]. }
  pose proof (freshness_antitone _ _ (maxAgeHours config) Ha).
  destruct (calculateRelevanceScore likes (algorithm config)); cbn [add]; try reflexivity.
  apply Rplus_le_compat_l, Rmult_le_compat_l; assumption.
Qed.

Lemma X25_score_non_increasing_in_time_witness :
  match finalScore (calculateScore (Fin 10) 0 DEFAULT_SCORING_CONFIG 0),
        finalScore (calculateScore (Fin 10) 0 DEFAULT_SCORING_CONFIG 3600000) with
  | Fin s1, Fin s2 => s2 <= s1
  | x, y => x = y
  end.
Proof. apply X25_score_non_increasing_in_time; cbn; lra. Defined.

Lemma ln_100 : ln 100 = 2 * ln 10.
Proof. replace 100 with (10 * 10) by lra. rewrite ln_mult by lra. lra. Qed.

(** X26. The score the [pre('save')] hook stores reaches the hot
    threshold of the ranking sets only for a post with at least 99 likes;
    a new post (0 likes) never reaches it. *)
Theorem X26_saved_score_hot_needs_99_likes (p : Post) (now : R) :
  is_hot (score (PostSvc.preSaveScore p now)) = true -> (99 <= likeCount p)%Z.
Proof.
  unfold PostSvc.preSaveScore. cbn [score]. unfold calculateScore. cbn [finalScore].
  cbv zeta. cbn [algorithm freshnessWeight maxAgeHours DEFAULT_SCORING_CONFIG].
  pose proof (freshness_bounds ((now - createdAt p) / (1000 * 60 * 60)) 168) as Hf.
  set (f := calculateFreshnessScore _ 168) in *.
  destruct (Z_lt_le_dec (likeCount p) 99) as [Hl|Hl]; [|intros _; exact Hl].
  intro Hhot. exfalso.
  assert (Hrel : exists x, calculateRelevanceScore (Fin (IZR (likeCount p))) LOGARITHMIC = Fin x
                           /\ x < 2).
  { destruct (Rle_lt_dec 0 (IZR (likeCount p))) as [H0|H0].
    - exists (ln (IZR (likeCount p) + 1) / ln 10). split; [apply relevance_log_fin, H0|].
      apply IZR_lt in Hl. pose proof ln10_pos.
      assert (Hlt : ln (IZR (likeCount p) + 1) < ln 100) by (apply ln_increasing; lra).
      rewrite ln_100 in Hlt. apply (Rmult_lt_reg_r (ln 10)); [lra|].
      unfold Rdiv. rewrite Rmult_assoc, Rinv_l by lra. lra.
    - exists (ln 1 / ln 10). split.
      + unfold calculateRelevanceScore, max0, add, log10.
        rewrite Rmax_left by lra. rewrite Rplus_0_l, Rltb_true by lra. reflexivity.
      + rewrite ln_1. unfold Rdiv. rewrite Rmult_0_l. lra. }
  destruct Hrel as [x [Hx Hx2]]. rewrite Hx in Hhot. cbn [add is_hot] in Hhot.
  unfold Rleb, MIN_HOT_POST_SCORE in Hhot.
  destruct (Rle_dec 3 (x + 1 * f)); [lra | discriminate].
Qed.

Lemma X26_saved_score_hot_needs_99_likes_witness :
  (99 <= likeCount (mkPost "p9" "c1" "a1" 999 (Fin 0) 0))%Z.
Proof.
  apply (X26_saved_score_hot_needs_99_likes _ 0).
  unfold PostSvc.preSaveScore. cbn [score likeCount createdAt]. unfold calculateScore.
  cbn [finalScore algorithm DEFAULT_SCORING_CONFIG freshnessWeight maxAgeHours].
  rewrite relevance_log_fin by (apply IZR_le; lia).
  pose proof (freshness_bounds ((0 - 0) / (1000 * 60 * 60)) 168) as Hf.
  cbn [add is_hot]. unfold Rleb, MIN_HOT_POST_SCORE.
  replace (IZR 999 + 1) with (10 * 10 * 10) by (rewrite <- plus_IZR; cbn; lra).
  pose proof ln10_pos.
  rewrite !ln_mult by lra.
  destruct (Rle_dec 3 ((ln 10 + ln 10 + ln 10) / ln 10 + 1 * calculateFreshnessScore ((0 - 0) / (1000 * 60 * 60)) 168)) as [|Hn];
    [reflexivity|].
  exfalso. apply Hn. unfold Rdiv. rewrite !Rmult_plus_distr_r, Rinv_r by lra. lra.
Defined.

End Extra_score.

Section Extra_cache.

Local Open Scope Z_scope.

Lemma ostr_eqb_refl (c : option string) : ostr_eqb c c = true.
Proof. destruct c; [apply String.eqb_refl | reflexivity]. Qed.

Lemma FeedKey_eqb_refl (k : FeedKey) : FeedKey_eqb k k = true.
Proof.
  destruct k as [c v so o]. unfold FeedKey_eqb. cbn [fk_cat fk_version fk_sort fk_order].
  rewrite ostr_eqb_refl, Z.eqb_refl. destruct so, o; reflexivity.
Qed.

(** X27. With the counter's key available, a [bumpFeedVersion] followed
    by [getFeedVersion] yields the previous version plus one (an absent
    counter counts as 0), so pages cached under the old version are no
    longer looked up. *)
Theorem X27_bump_then_read_version (c : option string) (w : World) :
  down (redis w) CWrite (KFeedVersion c) = false ->
  down (redis w) CRead (KFeedVersion c) = false ->
  fst ((bumpFeedVersion c ;;; getFeedVersion c) w) =
  Ok (match version_lookup (versions (redis w)) c with Some v => v | None => 0 end + 1).
Proof.
  destruct w as [d r]. cbn [redis]. intros Hw Hr.
  unfold bumpFeedVersion, getFeedVersion, bind, catch, redis_cmd, ret.
  cbn [db redis]. rewrite Hw. cbn -[ostr_eqb version_lookup]. rewrite Hr.
  cbn -[ostr_eqb]. rewrite ostr_eqb_refl. reflexivity.
Qed.

Lemma X27_bump_then_read_version_witness :
  fst ((bumpFeedVersion None ;;; getFeedVersion None)
         (mkWorld (db Inputs.world1) (mkRedis [(None, 7)] [] [] [] (fun _ _ => false)))) =
  Ok (match version_lookup [(None, 7)] None with Some v => v | None => 0 end + 1).
Proof. apply X27_bump_then_read_version; reflexivity. Defined.

Lemma length_zrevrange_top (k : Z) (z : zset) :
  1 <= k -> Z.of_nat (List.length (zrevrange 0 (k - 1) z)) = Z.min k (Z.of_nat (List.length z)).
Proof.
  intro Hk. rewrite zrevrange_top by exact Hk. rewrite length_map, length_firstn, length_rev. lia.
Qed.

(** X28. When the ranking set of the feed's scope can be read and holds
    at least a page of posts, the hybrid first page consists of ranked
    posts only, and its pagination reports one page in total and no next
    page, whatever the store holds. *)
Theorem X28_hybrid_full_hot_page (f : PostFilters) (pg : PaginationOptions) (w : World) :
  down (redis w) CRead (KHot (hot_scope (f_categoryId f))) = false ->
  clampLimit (p_limit pg) <= Z.of_nat (List.length (hot_lookup (hot (redis w)) (hot_scope (f_categoryId f)))) ->
  exists R,
    fst (getHybridFirstPage f pg w) = Ok R /\
    (forall p, In p (res_posts R) -> In (post_id p) (map fst (hot_lookup (hot (redis w)) (hot_scope (f_categoryId f))))) /\
    r_total (res_pagination R) = clampLimit (p_limit pg) /\
    r_totalPages (res_pagination R) = 1 /\
    r_hasNext (res_pagination R) = false.
Proof.
  intros Hd Hlen. pose proof (clampLimit_range (p_limit pg)) as Hl.
  set (L := clampLimit (p_limit pg)) in *.
  set (z := hot_lookup (hot (redis w)) (hot_scope (f_categoryId f))) in *.
  assert (Hn : Z.of_nat (List.length (zrevrange 0 (L - 1) z)) = L)
    by (rewrite length_zrevrange_top by lia; lia).
  unfold getHybridFirstPage, catch, bind, getHotPosts, redis_cmd. fold L. rewrite Hd. fold z.
  cbn [db redis fst snd]. rewrite Hn, Z.leb_refl.
  eexists. split; [reflexivity|]. cbn [res_posts res_pagination r_total r_totalPages r_hasNext].
  split; [|split; [reflexivity|]].
  - intros p Hp. apply populate_in in Hp. destruct Hp as [Hid _].
    apply in_firstn_incl in Hid. rewrite zrevrange_top in Hid by lia.
    apply in_map_iff in Hid. destruct Hid as [e [He Hin]].
    apply in_map_iff. exists e. split; [exact He|].
    apply in_rev, (in_firstn_incl _ _ _ Hin).
  - unfold buildPostsResult, ceil_div. cbn [res_pagination r_totalPages r_hasNext].
    replace (- L) with ((-1) * L) by ring. rewrite Z.div_mul by lia. split; reflexivity.
Qed.

Lemma X28_hybrid_full_hot_page_witness :
  exists R,
    fst (getHybridFirstPage Inputs.no_filters Inputs_extra.page1_limit5 Inputs.world_feed) = Ok R /\
    (forall p, In p (res_posts R) ->
       In (post_id p) (map fst (hot_lookup (hot (redis Inputs.world_feed)) (hot_scope None)))) /\
    r_total (res_pagination R) = clampLimit (Some 5) /\
    r_totalPages (res_pagination R) = 1 /\
    r_hasNext (res_pagination R) = false.
Proof.
  apply (X28_hybrid_full_hot_page Inputs.no_filters Inputs_extra.page1_limit5 Inputs.world_feed);
    [reflexivity | vm_compute; discriminate].
Defined.

Lemma getFeedVersion_up (c : option string) (d : DB) (r : Redis) :
  down r CRead (KFeedVersion c) = false -> down r CWrite (KFeedVersion c) = false ->
  exists v r', getFeedVersion c (mkWorld d r) = (Ok v, mkWorld d r') /\
    version_lookup (versions r') c = Some v /\ feeds r' = feeds r /\ down r' = down r.
Proof.
  intros Hr Hw. unfold getFeedVersion, catch, bind, redis_cmd, ret. cbn [db redis].
  rewrite Hr. destruct (version_lookup (versions r) c) as [v|] eqn:E.
  - exists v, r. auto.
  - cbn [db redis]. rewrite Hw. exists 1, (set_versions r ((c, 1) :: versions r)).
    split; [reflexivity|]. cbn -[ostr_eqb]. rewrite ostr_eqb_refl. auto.
Qed.

Lemma getFeedVersion_known (c : option string) (d : DB) (r : Redis) (v : Z) :
  down r CRead (KFeedVersion c) = false -> version_lookup (versions r) c = Some v ->
  getFeedVersion c (mkWorld d r) = (Ok v, mkWorld d r).
Proof.
  intros Hr Hv. unfold getFeedVersion, catch, bind, redis_cmd, ret. cbn [db redis].
  rewrite Hr, Hv. reflexivity.
Qed.

Lemma serve_full_first_page (f : PostFilters) (L : Z) (R : PostsResult) :
  f_categoryId f = None -> 1 <= L -> Z.of_nat (List.length (res_posts R)) = L ->
  exists R1, serveFromCache f (mkPagination (Some 1) (Some L) None) R = Some R1 /\
    res_posts R1 = res_posts R /\ r_page (res_pagination R1) = 1.
Proof.
  intros Hc HL Hlen. unfold serveFromCache. cbn [p_limit p_page]. rewrite Hc.
  cbn [truthy_str]. unfold or_default.
  replace (L =? 0) with false by (symmetry; apply Z.eqb_neq; lia). cbn [Z.eqb].
  rewrite Hlen. replace ((1 - 1) * L + L <=? L) with true by (symmetry; apply Z.leb_le; lia).
  eexists. split; [reflexivity|]. cbn [res_posts res_pagination r_page]. split; [|reflexivity].
  unfold js_slice. rewrite Hlen.
  replace (if (1 - 1) * L <? 0 then Z.max (L + (1 - 1) * L) 0 else Z.min ((1 - 1) * L) L) with 0
    by (cbn; lia).
  replace (if (1 - 1) * L + L <? 0 then Z.max (L + ((1 - 1) * L + L)) 0
           else Z.min ((1 - 1) * L + L) L) with L
    by (destruct (Z.ltb_spec ((1 - 1) * L + L) 0); lia).
  cbn [skipn Z.to_nat]. apply firstn_all2. lia.
Qed.

(** X29. The cache key of a feed does not include the page: once a full
    page [p >= 2] of a feed sorted by creation date or like count has been
    read into an empty cache, a read of page 1 with the same filters and
    limit returns page [p]'s posts, labelled page 1. *)
Theorem X29_cached_page_served_as_first_page (d : DB) (r : Redis) (f : PostFilters) (p L : Z) :
  (forall c k, down r c k = false) -> feeds r = [] -> f_categoryId f = None ->
  (f_sortBy f = Some CREATED_AT \/ f_sortBy f = Some LIKE_COUNT) ->
  2 <= p -> 1 <= L <= 100 ->
  Z.of_nat (List.length (res_posts (Store.getPosts d f (mkPagination (Some p) (Some L) None)))) = L ->
  match RedisSvc.getPosts f (mkPagination (Some p) (Some L) None) (mkWorld d r) with
  | (Ok Rp, w1) =>
      Rp = Store.getPosts d f (mkPagination (Some p) (Some L) None) /\
      exists R1,
        fst (RedisSvc.getPosts f (mkPagination (Some 1) (Some L) None) w1) = Ok R1 /\
        res_posts R1 = res_posts Rp /\ r_page (res_pagination R1) = 1
  | (Error _, _) => False
  end.
Proof.
  intros Hdown Hfeeds Hc Hs Hp HL Hlen.
  assert (Hns : isScoreBasedSort (sortBy_or_default f) = false)
    by (unfold sortBy_or_default; destruct Hs as [-> | ->]; reflexivity).
  set (c := normalizeCategoryId (f_categoryId f)).
  destruct (getFeedVersion_up c d r (Hdown _ _) (Hdown _ _)) as [v [r' [Hgv [Hlk [Hf' Hd']]]]].
  set (Rp := Store.getPosts d f (mkPagination (Some p) (Some L) None)) in *.
  set (key := feedKey f v).
  unfold RedisSvc.getPosts. cbn [p_page].
  replace (or_default (Some p) 1) with p by (unfold or_default; destruct (Z.eqb_spec p 0); lia).
  replace (p =? 1) with false by (symmetry; apply Z.eqb_neq; lia). cbn [andb].
  unfold getCachedPosts at 1. unfold bind at 1. fold c. rewrite Hgv.
  unfold catch, bind, redis_cmd, superGetPosts, gets_db, cacheFeedResult, ret.
  cbn [db redis]. fold key. rewrite Hd', Hdown, Hf', Hfeeds.
  cbn -[Store.getPosts feedKey getHybridFirstPage getCachedPosts or_default
        isScoreBasedSort sortBy_or_default].
  unfold redis_cmd. cbn [db redis]. rewrite Hd', Hdown.
  cbn -[Store.getPosts feedKey getHybridFirstPage getCachedPosts or_default
        isScoreBasedSort sortBy_or_default].
  split; [reflexivity|].
  destruct (serve_full_first_page f L Rp Hc ltac:(lia) Hlen) as [R1 [Hsv [Hpost Hpage]]].
  exists R1. split; [|split; assumption].
  replace (or_default (Some 1) 1) with 1 by reflexivity. rewrite Z.eqb_refl, Hns. cbn [andb].
  unfold getCachedPosts, bind at 1. fold c. fold Rp.
  rewrite (getFeedVersion_known c d (set_feeds r' ((key, Rp) :: feeds r')) v)
    by (cbn; rewrite ?Hd'; first [apply Hdown | exact Hlk]).
  fold key. unfold catch, bind, redis_cmd. cbn [db redis set_feeds down feeds].
  rewrite Hd', Hdown. cbn -[FeedKey_eqb serveFromCache]. rewrite FeedKey_eqb_refl.
  cbn [option_map]. rewrite Hsv. reflexivity.
Qed.

Lemma X29_cached_page_served_as_first_page_witness :
  match RedisSvc.getPosts Inputs_extra.created_at_filters (mkPagination (Some 2) (Some 10) None)
          (mkWorld (db Inputs.world_feed) Inputs.redis_up) with
  | (Ok Rp, w1) =>
      Rp = Store.getPosts (db Inputs.world_feed) Inputs_extra.created_at_filters
             (mkPagination (Some 2) (Some 10) None) /\
      exists R1,
        fst (RedisSvc.getPosts Inputs_extra.created_at_filters (mkPagination (Some 1) (Some 10) None) w1)
          = Ok R1 /\
        res_posts R1 = res_posts Rp /\ r_page (res_pagination R1) = 1
  | (Error _, _) => False
  end.
Proof.
  apply X29_cached_page_served_as_first_page;
    [intros c k; reflexivity | reflexivity | reflexivity | left; reflexivity | lia | lia |].
  rewrite page_length_formula. reflexivity.
Defined.

End Extra_cache.
